(** * CHEDS analytics dashboard: loading, session registry and aggregation

    A shallow embedding of [cheds_analytics_dashboard.py]: the start-up
    loader, [auto_load_csv_files], the upload loop of [main], the summary
    computations of [display_overview] and the inline aggregations of the
    domain views.

    Conventions.
    - Python [str] is [string]; [len(...)] is a [nat]; the session dictionary
      [st.session_state.datasets] is a [gmap string Dataset].
    - [pd.read_csv] is a call into pandas: a file is modelled by its name
      together with the outcome pandas gives for its bytes (a table or a
      raised exception).
    - Python floats are modelled by exact rationals ([Q], compared with
      [Qeq]/[Qle]); rounding is not part of the model.
    - A column has the dtype pandas infers from its cells: [int64] sums
      wrap around at 64 bits, [float64] sums skip missing cells, [object]
      sums add Python objects.
    - What the user enters in a widget is an input of the function that
      models the code after the widget.
    - A raised exception is the [Raise] constructor of [result]. *)

From Stdlib Require Import QArith Ascii String.
From stdpp Require Import gmap strings list fin_maps sorting.

Local Open Scope string_scope.
Local Open Scope list_scope.
Local Open Scope nat_scope.

(** ** Exceptions and fallible computations *)

Inductive exn :=
  | ParserError
  | ZeroDivisionError
  | TypeError
  | KeyError
  | ValueError.

Inductive result (A : Type) :=
  | Ok (a : A)
  | Raise (e : exn).
Arguments Ok {A} a.
Arguments Raise {A} e.

#[global] Instance result_ret : MRet result := λ A a, Ok a.

#[global] Instance result_bind : MBind result := λ A B k r,
  match r with
  | Ok a => k a
  | Raise e => Raise e
  end.

#[global] Instance result_fmap : FMap result := λ A B f r,
  match r with
  | Ok a => Ok (f a)
  | Raise e => Raise e
  end.

#[global] Instance exn_eq_dec : EqDecision exn.
Proof. solve_decision. Defined.

(** ** Tables *)

#[global] Instance Q_eq_dec : EqDecision Q.
Proof. solve_decision. Defined.

(** A cell of a parsed table: an integer, a float, a text, or the missing
    value (NaN). *)
Inductive Cell :=
  | CInt (z : Z)
  | CFloat (q : Q)
  | CStr (s : string)
  | CNaN.

#[global] Instance Cell_eq_dec : EqDecision Cell.
Proof. solve_decision. Defined.

Record DataFrame := {
  df_columns : list string;
  df_rows : list (list Cell)
}.

(** [len(df)] *)
Definition df_len (df : DataFrame) : nat := length (df_rows df).

(** [c in df.columns] *)
Definition has_column (df : DataFrame) (c : string) : bool :=
  bool_decide (c ∈ df_columns df).

Fixpoint index_of (c : string) (cols : list string) : option nat :=
  match cols with
  | [] => None
  | c' :: cols' =>
      if decide (c = c') then Some 0 else S <$> index_of c cols'
  end.

(** [df[c]]: the cells of column [c] in row order; [KeyError] when the
    column is absent.  A row shorter than the header reads as NaN. *)
Definition df_col (df : DataFrame) (c : string) : result (list Cell) :=
  match index_of c (df_columns df) with
  | Some i => Ok (map (λ r, default CNaN (r !! i)) (df_rows df))
  | None => Raise KeyError
  end.

(** One entry of [st.session_state.datasets]. *)
Record Dataset := {
  data : DataFrame;
  filename : string;
  rows : nat;
  columns : nat
}.

(** The dictionary literal built by each of the three loading loops. *)
Definition mk_dataset (df : DataFrame) (fname : string) : Dataset :=
  {| data := df; filename := fname;
     rows := df_len df; columns := length (df_columns df) |}.

(** ** Files and product identifiers *)

(** A file offered to a loader: its final path component and what
    [pd.read_csv(..., encoding='utf-8-sig')] does on its contents. *)
Record File := {
  name : string;
  read_csv : result DataFrame
}.

Definition underscore : ascii := "_"%char.
Definition dot : ascii := "."%char.

(** [s.split(sep)] for a one-character separator: never empty. *)
Fixpoint split (sep : ascii) (s : string) : list string :=
  match s with
  | EmptyString => [EmptyString]
  | String c s' =>
      if decide (c = sep) then EmptyString :: split sep s'
      else match split sep s' with
           | tok :: toks => String c tok :: toks
           | [] => [String c EmptyString]
           end
  end.

(** [c in s] for a character. *)
Fixpoint contains (c : ascii) (s : string) : bool :=
  match s with
  | EmptyString => false
  | String c' s' => if decide (c' = c) then true else contains c s'
  end.

(** [l[0]] on the result of a split. *)
Definition first_token (l : list string) : string := default EmptyString (head l).

(** [s.rfind('.')] *)
Fixpoint rfind_dot (s : string) : option nat :=
  match s with
  | EmptyString => None
  | String c s' =>
      match rfind_dot s' with
      | Some i => Some (S i)
      | None => if decide (c = dot) then Some 0 else None
      end
  end.

(** [Path.stem]: the name without its last suffix; a leading or a trailing
    dot does not start a suffix. *)
Definition stem (nm : string) : string :=
  match rfind_dot nm with
  | Some i =>
      if bool_decide (0 < i ∧ i < String.length nm - 1)
      then String.substring 0 i nm else nm
  | None => nm
  end.

(** Directory loaders: [file_path.stem.split('_')[0]]. *)
Definition directory_product_id (f : File) : string :=
  first_token (split underscore (stem (name f))).

(** Upload loop: [file.name.split('_')[0]]. *)
Definition upload_product_id (f : File) : string :=
  first_token (split underscore (name f)).

(** ** Session state *)

(** [st.session_state]: the three keys the script initialises. *)
Record SessionState := {
  data_loaded : bool;
  datasets : gmap string Dataset;
  auto_load_attempted : bool
}.

(** The state after the [if ... not in st.session_state] initialisers. *)
Definition initial_state : SessionState :=
  {| data_loaded := false; datasets := ∅; auto_load_attempted := false |}.

(** Truthiness of a Python list and of a Python dict. *)
Definition truthy_list {A} (l : list A) : bool :=
  match l with [] => false | _ :: _ => true end.

Definition truthy_dict (m : gmap string Dataset) : bool :=
  bool_decide (m ≠ ∅).

(** What the chain of [csv_dir.exists()] tests and [csv_dir.glob("*.csv")]
    yield: [None] when no candidate directory exists, otherwise the list of
    matching files. *)
Definition Directory := option (list File).

(** ** Loader *)

(** The body of the start-up loop: [try: ... except Exception: pass]. *)
Definition startup_load_file (acc : gmap string Dataset) (f : File)
    : gmap string Dataset :=
  match read_csv f with
  | Ok df => <[directory_product_id f := mk_dataset df (name f)]> acc
  | Raise _ => acc
  end.

(** The module-level auto-load block, run at the top of every script run. *)
Definition startup (dir : Directory) (s : SessionState) : SessionState :=
  if auto_load_attempted s then s
  else
    let s1 := {| data_loaded := data_loaded s; datasets := datasets s;
                 auto_load_attempted := true |} in
    match dir with
    | Some csv_files =>
        if truthy_list csv_files && negb (data_loaded s1) then
          let ds := foldl startup_load_file ∅ csv_files in
          if truthy_dict ds then
            {| data_loaded := true; datasets := ds;
               auto_load_attempted := true |}
          else s1
        else s1
    | None => s1
    end.

(** The [for] loop of [auto_load_csv_files]: no handler around
    [pd.read_csv], so the first failure leaves the loop. *)
Fixpoint reload_loop (csv_files : list File) (acc : gmap string Dataset)
    : result (gmap string Dataset) :=
  match csv_files with
  | [] => Ok acc
  | f :: rest =>
      df ← read_csv f;
      reload_loop rest (<[directory_product_id f := mk_dataset df (name f)]> acc)
  end.

(** [auto_load_csv_files]: the session state it leaves and what it returns
    (or raises).  The session is assigned only after the loop. *)
Definition auto_load_csv_files (dir : Directory) (s : SessionState)
    : SessionState * result bool :=
  match dir with
  | Some csv_files =>
      if truthy_list csv_files then
        match reload_loop csv_files ∅ with
        | Ok ds =>
            ({| data_loaded := true; datasets := ds;
                auto_load_attempted := auto_load_attempted s |}, Ok true)
        | Raise e => (s, Raise e)
        end
      else (s, Ok false)
  | None => (s, Ok false)
  end.

(** The upload loop of [main]: it writes into the session dictionary as it
    goes, so entries stored before a failure stay. *)
Fixpoint upload_loop (uploaded_files : list File) (ds : gmap string Dataset)
    : gmap string Dataset * result unit :=
  match uploaded_files with
  | [] => (ds, Ok ())
  | f :: rest =>
      match read_csv f with
      | Ok df =>
          upload_loop rest (<[upload_product_id f := mk_dataset df (name f)]> ds)
      | Raise e => (ds, Raise e)
      end
  end.

(** [if uploaded_files: ...] in [main]. *)
Definition upload (uploaded_files : list File) (s : SessionState)
    : SessionState * result unit :=
  if truthy_list uploaded_files then
    match upload_loop uploaded_files (datasets s) with
    | (ds, Ok _) =>
        ({| data_loaded := true; datasets := ds;
            auto_load_attempted := auto_load_attempted s |}, Ok ())
    | (ds, Raise e) =>
        ({| data_loaded := data_loaded s; datasets := ds;
            auto_load_attempted := auto_load_attempted s |}, Raise e)
    end
  else (s, Ok ()).

(** User-visible actions that touch the session. *)
Inductive action :=
  | Startup (dir : Directory)
  | Reload (dir : Directory)
  | Upload (uploaded_files : list File).

(** The session after an action, and whether the action raised. *)
Definition step (s : SessionState) (a : action) : SessionState * bool :=
  match a with
  | Startup dir => (startup dir s, false)
  | Reload dir =>
      let '(s', r) := auto_load_csv_files dir s in
      (s', if r is Raise _ then true else false)
  | Upload fs =>
      let '(s', r) := upload fs s in
      (s', if r is Raise _ then true else false)
  end.

(** Sessions reached from the initial one by actions none of which raised. *)
Inductive reachable : SessionState → Prop :=
  | reachable_init : reachable initial_state
  | reachable_step s a s' :
      reachable s → step s a = (s', false) → reachable s'.

(** [is_loaded()] *)
Definition is_loaded (s : SessionState) : bool := data_loaded s.

(** ** Python numbers and true division *)

(** A number as the views hold it: a plain Python number ([len(...)], a
    literal) or a NumPy scalar (the result of a pandas reduction). *)
Inductive pynum :=
  | Py (q : Q)
  | Np (q : Q).

Definition num_val (n : pynum) : Q :=
  match n with Py q => q | Np q => q end.

(** The value of a float expression: a finite number, [nan] or [±inf]. *)
Inductive pyfloat :=
  | Finite (q : Q)
  | NaN
  | Inf (negative : bool).

(** A count as a rational. *)
Definition Qnat (n : nat) : Q := inject_Z (Z.of_nat n).

Definition of_len (n : nat) : pynum := Py (Qnat n).

Definition Qis_zero (q : Q) : bool := (Qnum q =? 0)%Z.
Definition Qis_pos (q : Q) : bool := (0 <? Qnum q)%Z.

(** [a / b]: two Python numbers raise on a zero divisor; as soon as a NumPy
    scalar takes part the division follows IEEE rules and only warns. *)
Definition truediv (a b : pynum) : result pyfloat :=
  match a, b with
  | Py x, Py y =>
      if Qis_zero y then Raise ZeroDivisionError else Ok (Finite (x / y))
  | _, _ =>
      let x := num_val a in
      let y := num_val b in
      if Qis_zero y then
        Ok (if Qis_zero x then NaN else Inf (negb (Qis_pos x)))
      else Ok (Finite (x / y))
  end.

(** [x * 100] on a float. *)
Definition times100 (x : pyfloat) : pyfloat :=
  match x with
  | Finite q => Finite (q * 100)
  | NaN => NaN
  | Inf neg => Inf neg
  end.

(** [a - b] *)
Definition pysub (a b : pynum) : pynum :=
  match a, b with
  | Py x, Py y => Py (x - y)
  | _, _ => Np (num_val a - num_val b)
  end.

(** ** Overview metrics ([display_overview]) *)

(** [datasets.values()] *)
Definition dict_values (m : gmap string Dataset) : list Dataset :=
  (map_to_list m).*2.

Record OverviewMetrics := {
  total_products : nat;
  total_rows : nat;
  total_columns : nat;
  avg_records_per_product : nat
}.

Definition overview_metrics (m : gmap string Dataset) : OverviewMetrics :=
  let total_products := size m in
  let total_rows := sum_list (rows <$> dict_values m) in
  let total_columns := sum_list (columns <$> dict_values m) in
  {| total_products := total_products;
     total_rows := total_rows;
     total_columns := total_columns;
     avg_records_per_product :=
       if bool_decide (0 < total_products)
       then total_rows `div` total_products else 0 |}.

(** ** Catalog *)

Definition PRODUCT_CATEGORIES : list (string * list string) :=
  [ ("Learning and Teaching",
     ["CHEDS-LT-01"; "CHEDS-LT-02"; "CHEDS-LT-03"; "CHEDS-LT-04"; "CHEDS-LT-05";
      "CHEDS-LT-06"; "CHEDS-LT-07"; "CHEDS-LT-08"; "CHEDS-LT-09"; "CHEDS-LT-10";
      "CHEDS-LT-11"; "CHEDS-LT-12"; "CHEDS-LT-13"; "CHEDS-LT-14"; "CHEDS-LT-15";
      "CHEDS-LT-16"; "CHEDS-LT-17"; "CHEDS-LT-18"; "CHEDS-LT-19"; "CHEDS-LT-20"]);
    ("Human Resource Management",
     ["CHEDS-HR-21"; "CHEDS-HR-22"; "CHEDS-HR-23"; "CHEDS-HR-24"]);
    ("Financial Management", ["CHEDS-FIN-25"]);
    ("Research",
     ["CHEDS-RES-26"; "CHEDS-RES-27"; "CHEDS-RES-28"; "CHEDS-RES-29";
      "CHEDS-RES-30"; "CHEDS-RES-31"; "CHEDS-RES-32"]);
    ("Facilities & Estate Management", ["CHEDS-FAC-33"; "CHEDS-FAC-34"]);
    ("Supporting Services",
     ["CHEDS-SUP-35"; "CHEDS-SUP-36"; "CHEDS-SUP-40"; "CHEDS-SUP-41"]);
    ("Advancement Management",
     ["CHEDS-ADV-37"; "CHEDS-ADV-38"; "CHEDS-ADV-39"]) ].

(** ** Domain summary ([display_overview], the [domain_data] loop) *)

(** [[p for p in products if p in st.session_state.datasets]] *)
Definition loaded_products (products : list string) (m : gmap string Dataset)
    : list string :=
  filter (λ p, is_Some (m !! p)) products.

(** [st.session_state.datasets[p][field]] for a [p] taken from
    [loaded_products], where the lookup cannot miss. *)
Definition field_of (field : Dataset → nat) (m : gmap string Dataset)
    (p : string) : nat :=
  from_option field 0 (m !! p).

Record DomainRow := {
  Domain : string;
  Products : nat;
  Total_Products : nat;
  Records : nat;
  Avg_Columns : result pyfloat;
  Coverage : result pyfloat
}.

(** [sum(...columns...) / len(loaded_products) if loaded_products else 0] *)
Definition avg_cols (loaded : list string) (m : gmap string Dataset)
    : result pyfloat :=
  if truthy_list loaded then
    truediv (of_len (sum_list (field_of columns m <$> loaded)))
            (of_len (length loaded))
  else Ok (Finite 0).

(** [(len(loaded_products) / len(products) * 100) if products else 0] *)
Definition coverage_pct (loaded products : list string) : result pyfloat :=
  if truthy_list products then
    times100 <$> truediv (of_len (length loaded)) (of_len (length products))
  else Ok (Finite 0).

Definition domain_summary (domain : string) (products : list string)
    (m : gmap string Dataset) : DomainRow :=
  let loaded := loaded_products products m in
  {| Domain := domain;
     Products := length loaded;
     Total_Products := length products;
     Records := sum_list (field_of rows m <$> loaded);
     Avg_Columns := avg_cols loaded m;
     Coverage := coverage_pct loaded products |}.

Definition domain_data (m : gmap string Dataset) : list DomainRow :=
  map (λ '(domain, products), domain_summary domain products m)
      PRODUCT_CATEGORIES.

(** ** Percentages computed by the views *)

(** [num > 0] *)
Definition num_pos (n : pynum) : bool := Qis_pos (num_val n).

(** [display_learning_teaching], conversion metrics:
    [(total_enrolled / total_applicants) * 100 if total_applicants > 0 else 0] *)
Definition acceptance_rate (total_enrolled total_applicants : pynum)
    : result pyfloat :=
  if num_pos total_applicants
  then times100 <$> truediv total_enrolled total_applicants
  else Ok (Finite 0).

(** [(total_graduates / total_enrolled) * 100 if total_enrolled > 0 else 0] *)
Definition graduation_rate (total_graduates total_enrolled : pynum)
    : result pyfloat :=
  if num_pos total_enrolled
  then times100 <$> truediv total_graduates total_enrolled
  else Ok (Finite 0).

(** [(df[c] == v).sum() if c in df.columns else 0] *)
Definition count_equal (df : DataFrame) (c v : string) : result pynum :=
  if has_column df c then
    cells ← df_col df c;
    Ok (Np (Qnat (length (filter (λ x, x = CStr v) cells))))
  else Ok (Py 0).

(** [display_human_resources], workforce overview: the four [delta=]
    percentages, [count/total_employees*100], in the order the script
    evaluates them. *)
Definition workforce_share (count total_employees : pynum) : result pyfloat :=
  times100 <$> truediv count total_employees.

Record WorkforceShares := {
  male_pct : pyfloat;
  female_pct : pyfloat;
  uae_pct : pyfloat;
  expat_pct : pyfloat
}.

Definition workforce_overview (df : DataFrame) : result WorkforceShares :=
  let total_employees := of_len (df_len df) in
  male_count ← count_equal df "Emp_Gender" "M";
  female_count ← count_equal df "Emp_Gender" "F";
  uae_nationals ← count_equal df "Emp_Nationality" "AE";
  m ← workforce_share male_count total_employees;
  f ← workforce_share female_count total_employees;
  u ← workforce_share uae_nationals total_employees;
  let expats := pysub total_employees uae_nationals in
  e ← workforce_share expats total_employees;
  Ok {| male_pct := m; female_pct := f; uae_pct := u; expat_pct := e |}.

(** ** Grouped sums ([display_learning_teaching], applicants analysis) *)

(** [a + b] on Python objects, which is what the cells of an [object]
    column are: numbers add (NaN absorbs), texts concatenate, a number and
    a text raise [TypeError]. *)
Definition py_add (a b : Cell) : result Cell :=
  match a, b with
  | CInt x, CInt y => Ok (CInt (x + y))
  | CInt x, CFloat y => Ok (CFloat (inject_Z x + y))
  | CFloat x, CInt y => Ok (CFloat (x + inject_Z y))
  | CFloat x, CFloat y => Ok (CFloat (x + y))
  | CStr x, CStr y => Ok (CStr (x ++ y))
  | CNaN, (CInt _ | CFloat _ | CNaN) => Ok CNaN
  | (CInt _ | CFloat _), CNaN => Ok CNaN
  | _, _ => Raise TypeError
  end.

Definition is_nan (c : Cell) : bool :=
  match c with CNaN => true | _ => false end.

Definition is_text (c : Cell) : bool :=
  match c with CStr _ => true | _ => false end.

Definition is_int (c : Cell) : bool :=
  match c with CInt _ => true | _ => false end.

(** The dtype pandas gives a parsed column: [object] when a cell is a
    text, [int64] when every cell is an integer, [float64] otherwise (a
    float or a missing cell turns the whole column into floats). *)
Inductive dtype := Int64 | Float64 | Object.

Definition col_dtype (cells : list Cell) : dtype :=
  if existsb is_text cells then Object
  else if forallb is_int cells then Int64
  else Float64.

(** A 64-bit sum wraps around. *)
Definition wrap64 (z : Z) : Z := ((z + 2 ^ 63) `mod` 2 ^ 64 - 2 ^ 63)%Z.

Definition cell_num (c : Cell) : option Q :=
  match c with
  | CInt z => Some (inject_Z z)
  | CFloat q => Some q
  | _ => None
  end.

(** The sum of the integer cells of a list. *)
Definition int_total (vals : list Cell) : Z :=
  foldr (λ c acc, match c with CInt z => (z + acc)%Z | _ => acc end) 0%Z vals.

(** The sum of the numeric cells of a list, missing cells skipped. *)
Definition float_total (vals : list Cell) : Q :=
  foldr (λ c acc, match cell_num c with Some q => (q + acc)%Q | None => acc end)
        0%Q vals.

(** Adding up objects from the left, the first one starting the sum; no
    object at all sums to [0]. *)
Fixpoint sum_from (acc : Cell) (vals : list Cell) : result Cell :=
  match vals with
  | [] => Ok acc
  | v :: rest => acc' ← py_add acc v; sum_from acc' rest
  end.

Definition object_sum (vals : list Cell) : result Cell :=
  match vals with
  | [] => Ok (CInt 0)
  | v :: rest => sum_from v rest
  end.

(** The [sum] of one group of a column of the given dtype: 64-bit integer
    addition for [int64], the sum of the non-missing cells for [float64],
    and for [object] the non-missing objects added up from the left. *)
Definition group_sum (dt : dtype) (vals : list Cell) : result Cell :=
  match dt with
  | Int64 => Ok (CInt (wrap64 (int_total vals)))
  | Float64 => Ok (CFloat (float_total vals))
  | Object => object_sum (filter (λ v, is_nan v = false) vals)
  end.

(** [series.sum()]: as [group_sum] for the numeric dtypes; in an [object]
    column the missing cells are replaced by [0] before the objects are
    added up. *)
Definition series_sum (cells : list Cell) : result Cell :=
  match col_dtype cells with
  | Int64 => Ok (CInt (wrap64 (int_total cells)))
  | Float64 => Ok (CFloat (float_total cells))
  | Object => object_sum (map (λ c, if is_nan c then CInt 0 else c) cells)
  end.

(** Order of group keys: numbers by value, texts as Python compares
    [str], numbers before texts. *)
Definition key_ltb (a b : Cell) : bool :=
  match cell_num a, cell_num b with
  | Some x, Some y => negb (Qle_bool y x)
  | Some _, None => true
  | None, Some _ => false
  | None, None =>
      match a, b with
      | CStr s, CStr t => String.ltb s t
      | _, _ => false
      end
  end.

(** Adds one row to the groups, which are kept in ascending key order
    ([groupby] sorts its keys by default); the values of a group stay in row
    order. *)
Fixpoint group_insert (k v : Cell) (groups : list (Cell * list Cell))
    : list (Cell * list Cell) :=
  match groups with
  | [] => [(k, [v])]
  | (k', vs) :: rest =>
      if decide (k = k') then (k', vs ++ [v]) :: rest
      else if key_ltb k k' then (k, [v]) :: (k', vs) :: rest
      else (k', vs) :: group_insert k v rest
  end.

(** [df.groupby(group_col)[value_col]]: rows with a missing key are
    dropped. *)
Definition groupby (keys vals : list Cell) : list (Cell * list Cell) :=
  foldl (λ groups '(k, v), if is_nan k then groups else group_insert k v groups)
        [] (zip keys vals).

Fixpoint sum_groups (dt : dtype) (groups : list (Cell * list Cell))
    : result (list (Cell * Cell)) :=
  match groups with
  | [] => Ok []
  | (k, vs) :: rest =>
      s ← group_sum dt vs;
      sums ← sum_groups dt rest;
      Ok ((k, s) :: sums)
  end.

(** [df.groupby(group_col)[value_col].sum().reset_index()], as on the
    applicants panels: the value column is summed as it was loaded, in its
    own dtype. *)
Definition groupby_sum (df : DataFrame) (group_col value_col : string)
    : result (list (Cell * Cell)) :=
  keys ← df_col df group_col;
  vals ← df_col df value_col;
  sum_groups (col_dtype vals) (groupby keys vals).

(** ** Scalars and the [int] built-in *)

(** What a view holds in a variable such as [total_applicants]: a number,
    a text (the sum of a text column) or NaN. *)
Inductive scalar :=
  | SNum (n : pynum)
  | SStr (s : string)
  | SNaN.

Definition scalar_of_cell (c : Cell) : scalar :=
  match c with
  | CInt z => SNum (Np (inject_Z z))
  | CFloat q => SNum (Np q)
  | CStr s => SStr s
  | CNaN => SNaN
  end.

Definition is_digit (c : ascii) : bool :=
  let n := nat_of_ascii c in (48 <=? n) && (n <=? 57).

Definition is_space (c : ascii) : bool :=
  let n := nat_of_ascii c in
  (n =? 32) || ((9 <=? n) && (n <=? 13)) || ((28 <=? n) && (n <=? 31)).

Fixpoint lstrip (s : string) : string :=
  match s with
  | EmptyString => EmptyString
  | String c s' => if is_space c then lstrip s' else s
  end.

Fixpoint rstrip (s : string) : string :=
  match s with
  | EmptyString => EmptyString
  | String c s' =>
      match rstrip s' with
      | EmptyString => if is_space c then EmptyString else String c EmptyString
      | t => String c t
      end
  end.

(** Decimal digits, single underscores allowed between two digits. *)
Fixpoint digits (acc : Z) (after_digit : bool) (s : string) : option Z :=
  match s with
  | EmptyString => if after_digit then Some acc else None
  | String c s' =>
      if is_digit c
      then digits (10 * acc + Z.of_nat (nat_of_ascii c - 48)) true s'
      else if decide (c = underscore)
           then (if after_digit then digits acc false s' else None)
           else None
  end.

(** [int(s)] for a text: surrounding whitespace, an optional sign, then
    decimal digits (ASCII); anything else raises [ValueError]. *)
Definition int_of_str (s : string) : result Z :=
  let body := rstrip (lstrip s) in
  let '(negative, ds) :=
    match body with
    | String "-" r => (true, r)
    | String "+" r => (false, r)
    | _ => (false, body)
    end in
  match digits 0 false ds with
  | Some z => Ok (if negative then - z else z)%Z
  | None => Raise ValueError
  end.

(** [int(x)]: a number is truncated towards zero. *)
Definition py_int (x : scalar) : result Z :=
  match x with
  | SNum n => Ok (Z.quot (Qnum (num_val n)) (Z.pos (Qden (num_val n))))
  | SStr s => int_of_str s
  | SNaN => Raise ValueError
  end.

(** [x > 0]: a text and an integer do not compare. *)
Definition py_gt0 (x : scalar) : result bool :=
  match x with
  | SNum n => Ok (num_pos n)
  | SStr _ => Raise TypeError
  | SNaN => Ok false
  end.

(** ** Value counts *)

(** Tally of one more occurrence of [v]; a new value goes to the end. *)
Fixpoint tally (v : Cell) (acc : list (Cell * nat)) : list (Cell * nat) :=
  match acc with
  | [] => [(v, 1)]
  | (k, n) :: rest =>
      if decide (k = v) then (k, S n) :: rest else (k, n) :: tally v rest
  end.

(** Occurrences of each non-missing value, in order of first appearance. *)
Definition counts_first_seen (col : list Cell) : list (Cell * nat) :=
  foldl (λ acc v, if is_nan v then acc else tally v acc) [] col.

(** pandas sorts the tally with its default sort kind, which is not one of
    the stable kinds: the sort is a parameter, and [sort_contract] is what
    is known of it. *)
Definition sorter := list (Cell * nat) → list (Cell * nat).

Definition count_ge (a b : Cell * nat) : Prop := b.2 ≤ a.2.

Definition sort_contract (sort_values : sorter) : Prop :=
  ∀ l, sort_values l ≡ₚ l ∧ StronglySorted count_ge (sort_values l).

(** [series.value_counts()] *)
Definition value_counts (sort_values : sorter) (col : list Cell)
    : list (Cell * nat) :=
  sort_values (counts_first_seen col).


(** [df[c].value_counts()] *)
Definition df_value_counts (sort_values : sorter) (df : DataFrame)
    (c : string) : result (list (Cell * nat)) :=
  value_counts sort_values <$> df_col df c.

(** A sort that meets the contract: insertion from the right, an element
    going before those of equal count. *)
Fixpoint insert_first (x : Cell * nat) (l : list (Cell * nat))
    : list (Cell * nat) :=
  match l with
  | [] => [x]
  | y :: rest =>
      if bool_decide (y.2 ≤ x.2) then x :: y :: rest
      else y :: insert_first x rest
  end.

Definition stable_sort_desc : sorter := foldr insert_first [].

(** ** Upload bookkeeping *)

(** The uploaded files the loop gets to store: those before the first one
    pandas rejects, each with its table. *)
Fixpoint accepted (uploaded_files : list File) : list (File * DataFrame) :=
  match uploaded_files with
  | [] => []
  | f :: rest =>
      match read_csv f with
      | Ok df => (f, df) :: accepted rest
      | Raise _ => []
      end
  end.

(** The entry an upload leaves under key [k]: the one of the last stored
    file with that key, if any. *)
Definition last_upload_for (k : string) (uploaded_files : list File)
    : option Dataset :=
  (λ p : File * DataFrame, mk_dataset p.2 (name p.1)) <$>
    last (filter (λ p : File * DataFrame, upload_product_id p.1 = k)
                 (accepted uploaded_files)).

(** The registry entries of a domain's catalogued products, for stating
    what a domain summary aggregates. *)
Definition domain_datasets (products : list string)
    (m : gmap string Dataset) : list Dataset :=
  omap (λ p, m !! p) products.

(** Occurrences of a value in a column. *)
Definition occurrences (v : Cell) (col : list Cell) : nat :=
  length (filter (λ x, x = v) col).

(** The count a tally holds for a value, 0 when it holds none. *)
Fixpoint stored_count (v : Cell) (acc : list (Cell * nat)) : nat :=
  match acc with
  | [] => 0
  | (k, n) :: rest => if decide (k = v) then n else stored_count v rest
  end.

(** Whether pandas accepts the file. *)
Definition parses (f : File) : bool :=
  match read_csv f with Ok _ => true | Raise _ => false end.

(** The session invariant of the registry. *)
Definition loaded_iff_nonempty (s : SessionState) : Prop :=
  is_loaded s = true ↔ datasets s ≠ ∅.

(** ** Sample inputs *)

(** A table of [nrows] rows under the given header. *)
Definition table (header : list string) (nrows : nat) : DataFrame :=
  {| df_columns := header;
     df_rows := replicate nrows (replicate (length header) (CInt 1)) |}.

Definition lt01_file : File :=
  {| name := "CHEDS-LT-01_x.csv";
     read_csv := Ok (table ["a"; "b"; "c"] 10) |}.

Definition hr21_file : File :=
  {| name := "CHEDS-HR-21_y.csv";
     read_csv := Ok (table ["a"; "b"; "c"; "d"] 5) |}.

Definition malformed_file : File :=
  {| name := "CHEDS-FIN-25_z.csv"; read_csv := Raise ParserError |}.

Definition plain_name_file : File :=
  {| name := "CHEDS-LT-01.csv";
     read_csv := Ok (table ["a"; "b"; "c"] 10) |}.

(** The session after reloading a directory that holds the two sample
    files. *)
Definition two_file_session : SessionState :=
  (auto_load_csv_files (Some [lt01_file; hr21_file]) initial_state).1.

(** A header-only staff file without the gender and nationality columns,
    and one with them. *)
Definition empty_staff_table : DataFrame :=
  {| df_columns := ["Emp_ID"]; df_rows := [] |}.

Definition empty_staff_table_full : DataFrame :=
  {| df_columns := ["Emp_ID"; "Emp_Gender"; "Emp_Nationality"];
     df_rows := [] |}.

(** An applicants table whose count column holds a text that is not a
    number, so pandas loaded the whole column as text. *)
Definition applicants_table : DataFrame :=
  {| df_columns := ["App_Institution_Name"; "App_Applicants"];
     df_rows := [ [CStr "UAEU"; CStr "120"];
                  [CStr "UAEU"; CStr "unknown"];
                  [CStr "AUS"; CStr "75"] ] |}.

Definition letters : list Cell :=
  CStr <$> ["A"; "B"; "A"; "C"; "B"; "A"].

Definition applicants_file : File :=
  {| name := "CHEDS-LT-01_applicants.csv"; read_csv := Ok applicants_table |}.

(** The session after reloading a directory that holds the applicants
    file. *)
Definition applicants_session : SessionState :=
  (auto_load_csv_files (Some [applicants_file]) initial_state).1.

(** An applicants table with integer counts. *)
Definition applicants_counts_table : DataFrame :=
  {| df_columns := ["App_Institution_Name"; "App_Applicants"];
     df_rows := [ [CStr "UAEU"; CInt 120];
                  [CStr "AUS"; CInt 75];
                  [CNaN; CInt 9];
                  [CStr "UAEU"; CInt 30] ] |}.

(** A staff table of eleven rows: two men, nine women, two nationals. *)
Definition staff_table : DataFrame :=
  {| df_columns := ["Emp_ID"; "Emp_Gender"; "Emp_Nationality"];
     df_rows :=
       [ [CInt 1; CStr "M"; CStr "AE"]; [CInt 2; CStr "M"; CStr "IN"];
         [CInt 3; CStr "F"; CStr "AE"]; [CInt 4; CStr "F"; CStr "EG"];
         [CInt 5; CStr "F"; CStr "JO"]; [CInt 6; CStr "F"; CStr "IN"];
         [CInt 7; CStr "F"; CStr "PK"]; [CInt 8; CStr "F"; CStr "GB"];
         [CInt 9; CStr "F"; CStr "US"]; [CInt 10; CStr "F"; CStr "LB"];
         [CInt 11; CStr "F"; CStr "SY"] ] |}.

(** ** Sessions after any actions *)

(** Sessions reached from the initial one by any actions, those that
    raised included: the session keeps what a failed action wrote. *)
Inductive visited : SessionState → Prop :=
  | visited_init : visited initial_state
  | visited_step s a : visited s → visited (step s a).1.

(** The entry a directory load leaves under key [k]: the one of the last
    file with that key, if any. *)
Definition last_directory_entry (k : string) (csv_files : list File)
    : option Dataset :=
  (λ p : File * DataFrame, mk_dataset p.2 (name p.1)) <$>
    last (filter (λ p : File * DataFrame, directory_product_id p.1 = k)
                 (accepted csv_files)).

(** What holds of every registry entry: the key has no underscore and
    starts the stored file name, and the cached counts are those of the
    table. *)
Definition entry_ok (k : string) (d : Dataset) : Prop :=
  contains underscore k = false
  ∧ (∃ rest, filename d = (k ++ rest)%string)
  ∧ rows d = df_len (data d)
  ∧ columns d = length (df_columns (data d)).

(** The exception of the first file pandas rejects, if any. *)
Fixpoint first_error (csv_files : list File) : option exn :=
  match csv_files with
  | [] => None
  | f :: rest =>
      match read_csv f with
      | Ok _ => first_error rest
      | Raise e => Some e
      end
  end.

(** ** Domain views *)

(** All catalogued product ids, domain after domain. *)
Definition catalog_ids : list string := concat PRODUCT_CATEGORIES.*2.

(** [PRODUCT_CATEGORIES[domain]] *)
Definition category (domain : string) : result (list string) :=
  match list_find (λ p : string * list string, p.1 = domain)
                  PRODUCT_CATEGORIES with
  | Some (_, (_, products)) => Ok products
  | None => Raise KeyError
  end.

(** [{k: v for k, v in st.session_state.datasets.items() if k in products}] *)
Definition available (products : list string) (m : gmap string Dataset)
    : gmap string Dataset :=
  filter (λ kv : string * Dataset, kv.1 ∈ products) m.

(** Whether a domain view goes past its [if not available: ... return]. *)
Definition view_shown (domain : string) (m : gmap string Dataset)
    : result bool :=
  products ← category domain;
  Ok (truthy_dict (available products m)).

(** ** Learning and teaching view ([display_learning_teaching]) *)

(** [len(available[k]['data'])] when [k] is available, the initial [0]
    otherwise. *)
Definition table_len (av : gmap string Dataset) (k : string) : nat :=
  from_option (λ d, df_len (data d)) 0 (av !! k).

(** [df['App_Applicants'].sum() if 'App_Applicants' in df.columns else len(df)] *)
Definition applicants_total (df : DataFrame) : result scalar :=
  if has_column df "App_Applicants" then
    cells ← df_col df "App_Applicants";
    scalar_of_cell <$> series_sum cells
  else Ok (SNum (of_len (df_len df))).

(** [total_enrolled / total_courses if total_courses > 0 else 0] *)
Definition students_per_course (total_enrolled total_courses : pynum)
    : result pyfloat :=
  if num_pos total_courses then truediv total_enrolled total_courses
  else Ok (Finite 0).

Record Conversion := {
  conv_acceptance_rate : pyfloat;
  conv_graduation_rate : pyfloat;
  conv_students_per_course : pyfloat
}.

(** The block under [if total_applicants > 0 and total_enrolled > 0:]. *)
Definition conversion_metrics (total_applicants : scalar)
    (total_enrolled total_graduates total_courses : nat)
    : result (option Conversion) :=
  applicants_positive ← py_gt0 total_applicants;
  if applicants_positive && bool_decide (0 < total_enrolled) then
    match total_applicants with
    | SNum applicants =>
        a ← acceptance_rate (of_len total_enrolled) applicants;
        g ← graduation_rate (of_len total_graduates) (of_len total_enrolled);
        c ← students_per_course (of_len total_enrolled) (of_len total_courses);
        Ok (Some {| conv_acceptance_rate := a;
                    conv_graduation_rate := g;
                    conv_students_per_course := c |})
    | _ => Ok None
    end
  else Ok None.

(** What the view has computed when it reaches the institutions chart. *)
Record LearningTeaching := {
  lt_total_applicants : scalar;
  lt_applicants_shown : option Z;
  lt_total_enrolled : nat;
  lt_total_graduates : nat;
  lt_total_courses : nat;
  lt_total_programs : nat;
  lt_conversion : option Conversion;
  lt_inst_data : option (list (Cell * Cell))
}.

(** The view from its first line to the grouped sum of applicants per
    institution: [None] when the view stops at its warning. *)
Definition display_learning_teaching (m : gmap string Dataset)
    : result (option LearningTeaching) :=
  products ← category "Learning and Teaching";
  let available := available products m in
  if truthy_dict available then
    applicants ←
      match available !! "CHEDS-LT-01" with
      | Some info =>
          total ← applicants_total (data info);
          shown ← py_int total;
          Ok (total, Some shown)
      | None => Ok (SNum (Py 0), None)
      end;
    let total_enrolled := table_len available "CHEDS-LT-03" in
    let total_graduates := table_len available "CHEDS-LT-09" in
    let total_courses := table_len available "CHEDS-LT-11" in
    let total_programs := table_len available "CHEDS-LT-12" in
    conversion ← conversion_metrics applicants.1 total_enrolled
                                    total_graduates total_courses;
    inst_data ←
      match available !! "CHEDS-LT-01" with
      | Some info =>
          if has_column (data info) "App_Institution_Name"
             && has_column (data info) "App_Applicants"
          then Some <$> groupby_sum (data info) "App_Institution_Name"
                                    "App_Applicants"
          else Ok None
      | None => Ok None
      end;
    Ok (Some {| lt_total_applicants := applicants.1;
                lt_applicants_shown := applicants.2;
                lt_total_enrolled := total_enrolled;
                lt_total_graduates := total_graduates;
                lt_total_courses := total_courses;
                lt_total_programs := total_programs;
                lt_conversion := conversion;
                lt_inst_data := inst_data |})
  else Ok None.

(** ** Data explorer ([display_data_explorer]) *)

Definition colon : ascii := ":"%char.

(** [f"{product_id}: {info['filename']}"] *)
Definition file_option (product_id : string) (info : Dataset) : string :=
  (product_id ++ ": " ++ filename info)%string.

(** [product_id = selected_file.split(':')[0]] followed by
    [st.session_state.datasets[product_id]]. *)
Definition selected_dataset (selected_file : string)
    (m : gmap string Dataset) : result Dataset :=
  let product_id := first_token (split colon selected_file) in
  match m !! product_id with
  | Some info => Ok info
  | None => Raise KeyError
  end.

(** The cell of a row under the column at position [i]. *)
Definition cell_at (r : list Cell) (i : nat) : Cell := default CNaN (r !! i).

(** [filtered_df[filter_column].dropna().unique()]: the non-missing values
    in order of first appearance. *)
Definition unique_values (df : DataFrame) (filter_column : string)
    : result (list Cell) :=
  cells ← df_col df filter_column;
  Ok (counts_first_seen cells).*1.

(** [filtered_df[filtered_df[filter_column].isin(filter_values)]], the
    statement a filter slot runs once values have been chosen. *)
Definition isin_filter (df : DataFrame) (filter_column : string)
    (filter_values : list Cell) : result DataFrame :=
  match index_of filter_column (df_columns df) with
  | Some i =>
      Ok {| df_columns := df_columns df;
            df_rows := filter (λ r, cell_at r i ∈ filter_values)
                              (df_rows df) |}
  | None => Raise KeyError
  end.

Definition is_number (c : Cell) : bool :=
  match c with CInt _ | CFloat _ => true | _ => false end.

Fixpoint insert_sorted (x : Cell) (l : list Cell) : list Cell :=
  match l with
  | [] => [x]
  | y :: rest => if key_ltb y x then y :: insert_sorted x rest else x :: l
  end.

(** Texts next to numbers among the values. *)
Definition mixed (values : list Cell) : bool :=
  existsb is_text values && existsb is_number values.

(** [sorted(values)]: texts and numbers do not compare. *)
Definition py_sorted (values : list Cell) : result (list Cell) :=
  if mixed values then Raise TypeError
  else Ok (foldr insert_sorted [] values).

(** What the three widgets of one filter slot return: the chosen column
    (or ["None"]), the values picked in the dropdown, the search text. *)
Record Slot := {
  filter_column : string;
  filter_values : list Cell;
  filter_text : string
}.

(** [series.astype(str).str.contains(text, case=False, na=False)], the
    row mask of the text search; the pattern language is pandas' own and
    stays a parameter. *)
Definition text_search := string → list Cell → result (list bool).

(** [df[mask]] *)
Definition mask_rows (df : DataFrame) (mask : list bool) : DataFrame :=
  {| df_columns := df_columns df;
     df_rows := (filter (λ p : list Cell * bool, p.2 = true)
                        (zip (df_rows df) mask)).*1 |}.

(** One pass of the filter loop on the table filtered so far: nothing for
    ["None"]; a dropdown when the column has at most 50 distinct values,
    which filters only once a value is picked; otherwise a text search,
    which filters only once a text is typed. *)
Definition filter_slot (str_contains : text_search) (filtered_df : DataFrame)
    (w : Slot) : result DataFrame :=
  if decide (filter_column w = "None") then Ok filtered_df
  else
    unique ← unique_values filtered_df (filter_column w);
    if bool_decide (length unique ≤ 50) then
      options ← py_sorted unique;
      if truthy_list (filter_values w)
      then isin_filter filtered_df (filter_column w) (filter_values w)
      else Ok filtered_df
    else
      if decide (filter_text w = "") then Ok filtered_df
      else
        cells ← df_col filtered_df (filter_column w);
        mask ← str_contains (filter_text w) cells;
        Ok (mask_rows filtered_df mask).

(** The filter loop over the slots of the page. *)
Fixpoint filter_slots (str_contains : text_search) (filtered_df : DataFrame)
    (slots : list Slot) : result DataFrame :=
  match slots with
  | [] => Ok filtered_df
  | w :: rest =>
      filtered_df' ← filter_slot str_contains filtered_df w;
      filter_slots str_contains filtered_df' rest
  end.

(** The values a dropdown offers for a column: [Some] list when the slot
    shows a dropdown. *)
Definition dropdown_options (df : DataFrame) (c : string)
    : result (option (list Cell)) :=
  unique ← unique_values df c;
  if bool_decide (length unique ≤ 50) then Some <$> py_sorted unique
  else Ok None.

(** A text search that matches no row. *)
Definition match_nothing : text_search :=
  λ _ cells, Ok (map (λ _, false) cells).

Fixpoint column_positions (cols : list string) (header : list string)
    : result (list nat) :=
  match cols with
  | [] => Ok []
  | c :: rest =>
      match index_of c header with
      | Some i => ps ← column_positions rest header; Ok (i :: ps)
      | None => Raise KeyError
      end
  end.

(** [df[selected_columns]] *)
Definition df_select (df : DataFrame) (selected_columns : list string)
    : result DataFrame :=
  positions ← column_positions selected_columns (df_columns df);
  Ok {| df_columns := selected_columns;
        df_rows := map (λ r, map (cell_at r) positions) (df_rows df) |}.

(** [filtered_df[selected_columns] if selected_columns else filtered_df] *)
Definition display_view (filtered_df : DataFrame)
    (selected_columns : list string) : result DataFrame :=
  if truthy_list selected_columns then df_select filtered_df selected_columns
  else Ok filtered_df.

(** [display_df.head(row_limit)] *)
Definition df_head (n : nat) (df : DataFrame) : DataFrame :=
  {| df_columns := df_columns df; df_rows := take n (df_rows df) |}.

(** A table as pandas holds it: every row as wide as the header. *)
Definition rectangular (df : DataFrame) : Prop :=
  Forall (λ r, length r = length (df_columns df)) (df_rows df).

(** The rows as records over the header. *)
Definition records (df : DataFrame) : list (list Cell) :=
  map (λ r, map (cell_at r) (seq 0 (length (df_columns df)))) (df_rows df).

(** [df.duplicated()]: a row is marked when an equal row came before. *)
Fixpoint duplicated (seen rs : list (list Cell)) : list bool :=
  match rs with
  | [] => []
  | r :: rest => bool_decide (r ∈ seen) :: duplicated (r :: seen) rest
  end.

(** [df.duplicated().sum()] *)
Definition duplicate_rows (df : DataFrame) : nat :=
  length (filter (λ b, b = true) (duplicated [] (records df))).

(** ** Totals of integer columns *)





(** * Properties *)

(** ** Product identifiers *)

Lemma split_cons_shape (sep : ascii) (s : string) :
  ∃ tok toks, split sep s = tok :: toks.
Proof.
  destruct s as [|c s']; simpl; [by eexists _, _|].
  case_decide; [by eexists _, _|].
  destruct (split sep s'); by eexists _, _.
Qed.

(** The first token holds no separator. *)
Lemma first_token_no_sep (sep : ascii) (s : string) :
  contains sep (first_token (split sep s)) = false.
Proof.
  induction s as [|c s' IH]; simpl; [done|].
  case_decide as Hc; [done|].
  destruct (split_cons_shape sep s') as (tok & toks & Hs).
  rewrite Hs in *. unfold first_token in *. simpl in *.
  by rewrite decide_False.
Qed.

(** The first token is the text before the first separator. *)
Lemma first_token_prefix (sep : ascii) (s : string) :
  ∃ rest, s = (first_token (split sep s) ++ rest)%string
          ∧ (rest = EmptyString ∨ ∃ r, rest = String sep r).
Proof.
  induction s as [|c s' IH]; simpl.
  - exists EmptyString. by split; [|left].
  - case_decide as Hc.
    + subst c. exists (String sep s'). split; [done|]. right. by eexists.
    + destruct IH as (rest & Hs & Hrest).
      destruct (split_cons_shape sep s') as (tok & toks & Hsp).
      rewrite Hsp in *. unfold first_token in *. simpl in *.
      exists rest. split; [|done]. by rewrite Hs at 1.
Qed.

(** Without a separator the whole text is the first token. *)
Lemma first_token_whole (sep : ascii) (s : string) :
  contains sep s = false → first_token (split sep s) = s.
Proof.
  induction s as [|c s' IH]; simpl; [done|].
  case_decide as Hc; [done|]. intros Hs. specialize (IH Hs).
  destruct (split_cons_shape sep s') as (tok & toks & Hsp).
  rewrite Hsp in *. unfold first_token in *. simpl in *. by f_equal.
Qed.

Lemma first_token_app (sep : ascii) (a b : string) :
  contains sep a = true →
  first_token (split sep (a ++ b)%string) = first_token (split sep a).
Proof.
  induction a as [|c a' IH]; [done|].
  change (String c a' +:+ b) with (String c (a' +:+ b)).
  cbn [contains split]. case_decide as Hc; [done|].
  intros Ha. specialize (IH Ha).
  destruct (split_cons_shape sep a') as (tok & toks & Hsp).
  destruct (split_cons_shape sep (a' +:+ b)) as (tok' & toks' & Hsp').
  rewrite Hsp, Hsp' in *. unfold first_token in *. simpl in *. by f_equal.
Qed.

Lemma substring_prefix (i : nat) (s : string) :
  ∃ suffix, s = (String.substring 0 i s ++ suffix)%string.
Proof.
  revert i. induction s as [|c s' IH]; intros [|i]; simpl;
    try by eexists.
  destruct (IH i) as [suffix Hs]. exists suffix. by rewrite Hs at 1.
Qed.

Lemma stem_prefix (nm : string) : ∃ suffix, nm = (stem nm ++ suffix)%string.
Proof.
  unfold stem. destruct (rfind_dot nm) as [i|].
  - case_bool_decide; [apply substring_prefix|].
    exists EmptyString. clear. induction nm as [|c nm IH]; [done|].
    by rewrite IH at 1.
  - exists EmptyString. clear. induction nm as [|c nm IH]; [done|].
    by rewrite IH at 1.
Qed.

(** The directory loaders key a file by the part of its stem before the
    first underscore, the whole stem when it has none. *)
Lemma directory_product_id_spec (f : File) :
  contains underscore (directory_product_id f) = false
  ∧ (∃ rest, stem (name f) = (directory_product_id f ++ rest)%string
             ∧ (rest = EmptyString ∨ ∃ r, rest = String underscore r))
  ∧ (contains underscore (stem (name f)) = false →
     directory_product_id f = stem (name f)).
Proof.
  unfold directory_product_id. split_and!.
  - apply first_token_no_sep.
  - apply first_token_prefix.
  - apply first_token_whole.
Qed.

(** The upload loop agrees with them when the stem has an underscore. *)
Lemma upload_product_id_with_underscore (f : File) :
  contains underscore (stem (name f)) = true →
  upload_product_id f = directory_product_id f.
Proof.
  intros Hu. unfold upload_product_id, directory_product_id.
  destruct (stem_prefix (name f)) as [suffix Hn].
  rewrite Hn at 1. by apply first_token_app.
Qed.

(** C5 at a file named [CHEDS-LT-01.csv]: the directory loaders store it
    under [CHEDS-LT-01], the stem; the upload loop under
    [CHEDS-LT-01.csv], the whole name. *)
Theorem upload_key_of_name_without_underscore :
  let reloaded := (auto_load_csv_files (Some [plain_name_file]) initial_state).1 in
  let uploaded := (upload [plain_name_file] initial_state).1 in
  stem (name plain_name_file) = "CHEDS-LT-01"
  ∧ directory_product_id plain_name_file = "CHEDS-LT-01"
  ∧ upload_product_id plain_name_file = "CHEDS-LT-01.csv"
  ∧ filename <$> datasets reloaded !! "CHEDS-LT-01" = Some "CHEDS-LT-01.csv"
  ∧ datasets uploaded !! "CHEDS-LT-01" = None
  ∧ filename <$> datasets uploaded !! "CHEDS-LT-01.csv" = Some "CHEDS-LT-01.csv"
  ∧ directory_product_id lt01_file = "CHEDS-LT-01"
  ∧ upload_product_id lt01_file = "CHEDS-LT-01".
Proof. split_and!; vm_compute; reflexivity. Qed.

(** ** Parse failures inside a batch *)

(** The start-up loop skips the files pandas rejects and loads the rest. *)
Lemma startup_loop_skips_failures (csv_files : list File)
    (acc : gmap string Dataset) :
  foldl startup_load_file acc csv_files
  = foldl startup_load_file acc
      (filter (λ f, parses f = true) csv_files).
Proof.
  revert acc. induction csv_files as [|f rest IH]; intros acc; [done|].
  rewrite filter_cons. case_decide as Hf; simpl.
  - apply IH.
  - rewrite IH. f_equal. unfold startup_load_file.
    unfold parses in Hf. by destruct (read_csv f) as [df|e].
Qed.

(** One rejected file makes [auto_load_csv_files] raise, with the session
    left as it was: none of the other files is loaded. *)
Lemma reload_loop_raises (csv_files : list File)
    (acc : gmap string Dataset) (bad : File) (e : exn) :
  bad ∈ csv_files → read_csv bad = Raise e →
  ∃ e', reload_loop csv_files acc = Raise e'.
Proof.
  intros Hin Hbad. revert acc.
  induction csv_files as [|f rest IH]; intros acc;
    [by apply elem_of_nil in Hin|].
  simpl. destruct (read_csv f) as [df|e1] eqn:Hf; simpl; [|by eexists].
  apply elem_of_cons in Hin as [->|Hin]; [congruence|]. by apply IH.
Qed.

Lemma reload_fails_as_a_whole (csv_files : list File) (s : SessionState)
    (bad : File) (e : exn) :
  bad ∈ csv_files → read_csv bad = Raise e →
  ∃ e', auto_load_csv_files (Some csv_files) s = (s, Raise e').
Proof.
  intros Hin Hbad. unfold auto_load_csv_files.
  destruct csv_files as [|f rest]; [by apply elem_of_nil in Hin|].
  cbn [truthy_list].
  destruct (reload_loop_raises (f :: rest) ∅ bad e Hin Hbad) as [e' ->].
  by exists e'.
Qed.

(** C1 at a batch of three files whose second one is malformed: the
    start-up loader skips it and loads the two others; the reload raises
    and loads nothing; the upload raises after the first file, never tries
    the third, and leaves the loaded flag unset over a non-empty registry. *)
Theorem malformed_file_aborts_reload_and_upload :
  let batch := [lt01_file; malformed_file; hr21_file] in
  let started := startup (Some batch) initial_state in
  let uploaded := upload batch initial_state in
  (size (datasets started) = 2
   ∧ filename <$> datasets started !! "CHEDS-LT-01" = Some "CHEDS-LT-01_x.csv"
   ∧ filename <$> datasets started !! "CHEDS-HR-21" = Some "CHEDS-HR-21_y.csv")
  ∧ auto_load_csv_files (Some batch) initial_state
    = (initial_state, Raise ParserError)
  ∧ uploaded.2 = Raise ParserError
  ∧ size (datasets uploaded.1) = 1
  ∧ filename <$> datasets uploaded.1 !! "CHEDS-LT-01" = Some "CHEDS-LT-01_x.csv"
  ∧ datasets uploaded.1 !! "CHEDS-HR-21" = None
  ∧ is_loaded uploaded.1 = false.
Proof. split_and!; vm_compute; reflexivity. Qed.

(** ** Upload merges into the registry *)

Lemma upload_loop_lookup (uploaded_files : list File)
    (ds : gmap string Dataset) (k : string) :
  (upload_loop uploaded_files ds).1 !! k
  = from_option Some (ds !! k) (last_upload_for k uploaded_files).
Proof.
  unfold last_upload_for.
  revert ds. induction uploaded_files as [|f rest IH]; intros ds; [done|].
  simpl. destruct (read_csv f) as [df|e]; [|done].
  rewrite IH. rewrite filter_cons. simpl.
  destruct (decide (upload_product_id f = k)) as [Hk|Hk].
  - rewrite last_cons.
    destruct (last (filter _ (accepted rest))) as [p|]; simpl; [done|].
    by rewrite Hk, lookup_insert_eq.
  - destruct (last (filter _ (accepted rest))) as [p|]; simpl; [done|].
    by rewrite lookup_insert_ne.
Qed.

Lemma upload_datasets (uploaded_files : list File) (s : SessionState) :
  datasets (upload uploaded_files s).1
  = (upload_loop uploaded_files (datasets s)).1.
Proof.
  unfold upload. destruct uploaded_files as [|f rest]; [done|].
  cbn [truthy_list].
  by destruct (upload_loop (f :: rest) (datasets s)) as [ds [[]|e]].
Qed.

Lemma accepted_subset (uploaded_files : list File) p :
  p ∈ accepted uploaded_files → p.1 ∈ uploaded_files.
Proof.
  induction uploaded_files as [|f rest IH]; simpl; [by intros ?%elem_of_nil|].
  destruct (read_csv f); [|by intros ?%elem_of_nil].
  intros [->|?]%elem_of_cons; [left|right; auto].
Qed.

Lemma last_upload_for_None (uploaded_files : list File) k :
  k ∉ upload_product_id <$> uploaded_files →
  last_upload_for k uploaded_files = None.
Proof.
  intros Hk. unfold last_upload_for.
  destruct (last _) as [p|] eqn:Hl; [|done].
  apply last_Some_elem_of, list_elem_of_filter in Hl as [Hp Hin].
  destruct Hk. apply list_elem_of_fmap. exists p.1.
  split; [done|]. by apply accepted_subset.
Qed.

Lemma upload_loop_ok_accepted (uploaded_files : list File) ds :
  (upload_loop uploaded_files ds).2 = Ok () →
  (accepted uploaded_files).*1 = uploaded_files.
Proof.
  revert ds. induction uploaded_files as [|f rest IH]; intros ds; [done|].
  simpl. destruct (read_csv f) as [df|e]; [|done].
  intros H. simpl. f_equal. by eapply IH.
Qed.

Lemma upload_outcome (uploaded_files : list File) (s : SessionState) :
  (upload uploaded_files s).2 = (upload_loop uploaded_files (datasets s)).2.
Proof.
  unfold upload. destruct uploaded_files as [|f rest]; [done|].
  cbn [truthy_list].
  by destruct (upload_loop (f :: rest) (datasets s)) as [ds [[]|e]].
Qed.

(** C9. An upload merges into the registry: under every key the registry
    afterwards holds the entry of the last stored file with that key, and
    otherwise what it held before; keys that no uploaded file maps to are
    untouched and no entry disappears.  When the upload does not raise,
    every uploaded file is stored. *)
Theorem upload_merges_into_registry (uploaded_files : list File)
    (s : SessionState) :
  let s' := (upload uploaded_files s).1 in
  (∀ k, datasets s' !! k
        = from_option Some (datasets s !! k)
                      (last_upload_for k uploaded_files))
  ∧ (∀ k, k ∉ upload_product_id <$> uploaded_files →
          datasets s' !! k = datasets s !! k)
  ∧ (∀ k, is_Some (datasets s !! k) → is_Some (datasets s' !! k))
  ∧ ((upload uploaded_files s).2 = Ok () →
     (accepted uploaded_files).*1 = uploaded_files).
Proof.
  intros s'. subst s'. rewrite upload_datasets, upload_outcome.
  split_and!.
  - intros k. apply upload_loop_lookup.
  - intros k Hk. rewrite upload_loop_lookup.
    by rewrite last_upload_for_None.
  - intros k Hk. rewrite upload_loop_lookup.
    by destruct (last_upload_for k uploaded_files).
  - apply upload_loop_ok_accepted.
Qed.

(** ** The loaded flag and the registry *)

Lemma reload_loop_non_empty (csv_files : list File)
    (acc ds : gmap string Dataset) :
  acc ≠ ∅ → reload_loop csv_files acc = Ok ds → ds ≠ ∅.
Proof.
  revert acc. induction csv_files as [|f rest IH]; intros acc Hacc; simpl.
  - by intros [= <-].
  - destruct (read_csv f) as [df|e]; simpl; [|done].
    apply IH, insert_non_empty.
Qed.

Lemma upload_loop_non_empty (uploaded_files : list File)
    (ds : gmap string Dataset) :
  ds ≠ ∅ → (upload_loop uploaded_files ds).1 ≠ ∅.
Proof.
  revert ds. induction uploaded_files as [|f rest IH]; intros ds Hds; simpl.
  - done.
  - destruct (read_csv f) as [df|e]; simpl; [|done].
    apply IH, insert_non_empty.
Qed.

Lemma startup_preserves (dir : Directory) (s : SessionState) :
  loaded_iff_nonempty s → loaded_iff_nonempty (startup dir s).
Proof.
  unfold loaded_iff_nonempty, startup, is_loaded. intros Hs.
  destruct (auto_load_attempted s); [done|].
  destruct dir as [csv_files|]; [|done]. cbn [data_loaded].
  destruct (truthy_list csv_files && negb (data_loaded s)); [|done].
  unfold truthy_dict. case_bool_decide; [|done].
  simpl. by split.
Qed.

Lemma reload_preserves (dir : Directory) (s s' : SessionState) r :
  loaded_iff_nonempty s → auto_load_csv_files dir s = (s', r) →
  loaded_iff_nonempty s'.
Proof.
  unfold auto_load_csv_files. intros Hs.
  destruct dir as [[|f rest]|]; cbn [truthy_list]; try by intros [= <- <-].
  destruct (reload_loop (f :: rest) ∅) as [ds|e] eqn:Hloop;
    intros [= <- <-]; [|done].
  unfold loaded_iff_nonempty, is_loaded. simpl. split; [intros _|done].
  simpl in Hloop. destruct (read_csv f) as [df|e]; [|done].
  eapply reload_loop_non_empty; [|exact Hloop]. apply insert_non_empty.
Qed.

Lemma upload_ok_preserves (uploaded_files : list File) (s s' : SessionState) :
  loaded_iff_nonempty s → upload uploaded_files s = (s', Ok ()) →
  loaded_iff_nonempty s'.
Proof.
  unfold upload. intros Hs.
  destruct uploaded_files as [|f rest]; cbn [truthy_list];
    [by intros [= <-]|].
  destruct (upload_loop (f :: rest) (datasets s)) as [ds [[]|e]] eqn:Hloop;
    intros [= <-].
  unfold loaded_iff_nonempty, is_loaded. simpl. split; [intros _|done].
  simpl in Hloop. destruct (read_csv f) as [df|e]; [|done].
  replace ds with (upload_loop rest
    (<[upload_product_id f:=mk_dataset df (name f)]> (datasets s))).1
    by (by rewrite Hloop).
  apply upload_loop_non_empty, insert_non_empty.
Qed.

Lemma step_preserves (s s' : SessionState) (a : action) :
  loaded_iff_nonempty s → step s a = (s', false) → loaded_iff_nonempty s'.
Proof.
  intros Hs. destruct a as [dir|dir|fs]; simpl.
  - intros [= <-]. by apply startup_preserves.
  - destruct (auto_load_csv_files dir s) as [s1 r] eqn:Hr.
    intros [= <- _]. by eapply reload_preserves.
  - destruct (upload fs s) as [s1 [[]|e]] eqn:Hu; intros [= <-].
    by eapply upload_ok_preserves.
Qed.

Lemma reachable_loaded_iff_nonempty (s : SessionState) :
  reachable s → loaded_iff_nonempty s.
Proof.
  induction 1 as [|s a s' _ IH Hstep].
  - unfold loaded_iff_nonempty. simpl. split; [done|]. by intros [].
  - by eapply step_preserves.
Qed.

Lemma reload_nothing_found (dir : Directory) (s : SessionState) :
  dir = None ∨ dir = Some [] → auto_load_csv_files dir s = (s, Ok false).
Proof. by intros [-> | ->]. Qed.

Lemma two_file_session_reachable : reachable two_file_session.
Proof.
  apply (reachable_step initial_state
           (Reload (Some [lt01_file; hr21_file]))); [constructor|].
  reflexivity.
Qed.

(** C6, as the claim states its scenario: a reload that finds nothing after
    a non-empty load does not empty the registry, and the session stays
    loaded. *)
Lemma reload_nothing_found_keeps_registry :
  let after_missing := (auto_load_csv_files None two_file_session).1 in
  let after_empty := (auto_load_csv_files (Some []) two_file_session).1 in
  reachable two_file_session
  ∧ is_loaded after_missing = true ∧ size (datasets after_missing) = 2
  ∧ is_loaded after_empty = true ∧ size (datasets after_empty) = 2
  ∧ ¬ (is_loaded after_missing = false ∧ datasets after_missing = ∅).
Proof.
  split_and!; try reflexivity.
  - apply two_file_session_reachable.
  - by intros [? _].
Qed.

(** C6, amended.  At every session reached by start-up loads, reloads and
    uploads that did not raise, the loaded flag is set iff the registry is
    non-empty; a reload that finds no directory or no matching file
    returns [False] and leaves the session as it was. *)
Theorem loaded_flag_iff_registry_nonempty (s : SessionState) :
  reachable s →
  (is_loaded s = true ↔ datasets s ≠ ∅)
  ∧ (∀ dir, dir = None ∨ dir = Some [] →
            auto_load_csv_files dir s = (s, Ok false)).
Proof.
  intros Hs. split.
  - by apply reachable_loaded_iff_nonempty.
  - intros dir. apply reload_nothing_found.
Qed.

(** The session holding the two sample files is reached by one reload and
    meets the statement above. *)
Lemma loaded_flag_iff_registry_nonempty_witness :
  reachable two_file_session
  ∧ (is_loaded two_file_session = true ↔ datasets two_file_session ≠ ∅)
  ∧ (∀ dir, dir = None ∨ dir = Some [] →
            auto_load_csv_files dir two_file_session
            = (two_file_session, Ok false)).
Proof.
  split; [apply two_file_session_reachable|].
  apply (loaded_flag_iff_registry_nonempty two_file_session).
  apply (reachable_step initial_state
           (Reload (Some [lt01_file; hr21_file]))); [constructor|].
  reflexivity.
Defined.

(** ** Overview metrics *)

Lemma sum_list_values_fold (field : Dataset → nat) (m : gmap string Dataset) :
  sum_list (field <$> dict_values m)
  = map_fold (λ _ d acc, field d + acc) 0 m.
Proof.
  rewrite map_fold_foldr. unfold dict_values.
  induction (map_to_list m) as [|[k d] l IH]; simpl; [done|].
  f_equal. exact IH.
Qed.

Lemma total_rows_empty : total_rows (overview_metrics ∅) = 0.
Proof. reflexivity. Qed.

Lemma dict_values_insert_fresh (m : gmap string Dataset) k d :
  m !! k = None → dict_values (<[k:=d]> m) ≡ₚ d :: dict_values m.
Proof.
  intros Hk. unfold dict_values.
  by rewrite map_to_list_insert.
Qed.

(** Loading a product under a fresh key adds its rows and columns to the
    totals and one to the product count. *)
Lemma overview_metrics_insert_fresh (m : gmap string Dataset) k d :
  m !! k = None →
  total_products (overview_metrics (<[k:=d]> m))
    = S (total_products (overview_metrics m))
  ∧ total_rows (overview_metrics (<[k:=d]> m))
    = rows d + total_rows (overview_metrics m)
  ∧ total_columns (overview_metrics (<[k:=d]> m))
    = columns d + total_columns (overview_metrics m).
Proof.
  intros Hk. simpl. split; [by apply map_size_insert_None|].
  by rewrite !(dict_values_insert_fresh m k d Hk).
Qed.

(** C2. The overview metrics count the registry entries, sum their stored
    row and column counts, and take the floor quotient of records by
    products (0 for an empty registry); the two-file scenario gives
    2 products, 15 records, 7 columns and an average of 7. *)
Theorem overview_metrics_correct (m : gmap string Dataset) :
  let om := overview_metrics m in
  total_products om = size m
  ∧ total_rows om = map_fold (λ _ d acc, rows d + acc) 0 m
  ∧ total_columns om = map_fold (λ _ d acc, columns d + acc) 0 m
  ∧ avg_records_per_product om
    = (if decide (0 < total_products om)
       then total_rows om `div` total_products om else 0)
  ∧ avg_records_per_product om * total_products om ≤ total_rows om
  ∧ (total_products om = 0
     ∨ total_rows om < (avg_records_per_product om + 1) * total_products om)
  ∧ (datasets two_file_session !! "CHEDS-LT-01"
       = Some (mk_dataset (table ["a"; "b"; "c"] 10) "CHEDS-LT-01_x.csv")
     ∧ datasets two_file_session !! "CHEDS-HR-21"
       = Some (mk_dataset (table ["a"; "b"; "c"; "d"] 5) "CHEDS-HR-21_y.csv")
     ∧ overview_metrics (datasets two_file_session)
       = {| total_products := 2; total_rows := 15; total_columns := 7;
            avg_records_per_product := 7 |}).
Proof.
  intros om. subst om. cbn [total_products total_rows total_columns
    avg_records_per_product overview_metrics].
  rewrite <- !sum_list_values_fold.
  set (n := size m). set (t := sum_list (rows <$> dict_values m)).
  split_and!; try done.
  - by repeat case_decide; repeat case_bool_decide.
  - case_bool_decide; [|lia].
    rewrite Nat.mul_comm. by apply Nat.Div0.mul_div_le.
  - case_bool_decide; [right|left; lia].
    pose proof (Nat.div_mod_eq t n). pose proof (Nat.mod_upper_bound t n). nia.
Qed.

(** ** Domain summaries *)

Lemma Qnat_nonneg (n : nat) : (0 <= Qnat n)%Q.
Proof.
  unfold Qnat. change 0%Q with (inject_Z 0). rewrite <- Zle_Qle. lia.
Qed.

Lemma Qnat_pos (n : nat) : 0 < n → (0 < Qnat n)%Q.
Proof.
  intros Hn. unfold Qnat. change 0%Q with (inject_Z 0).
  rewrite <- Zlt_Qlt. lia.
Qed.

Lemma Qnat_le (a b : nat) : a ≤ b → (Qnat a <= Qnat b)%Q.
Proof. intros Hab. unfold Qnat. rewrite <- Zle_Qle. lia. Qed.

Lemma Qis_zero_Qnat (n : nat) : Qis_zero (Qnat n) = bool_decide (n = 0).
Proof.
  unfold Qis_zero, Qnat. simpl. case_bool_decide; [subst; done|].
  apply Z.eqb_neq. lia.
Qed.

(** Dividing two lengths, the divisor not zero, is an ordinary quotient. *)
Lemma truediv_len (a b : nat) :
  0 < b → truediv (of_len a) (of_len b) = Ok (Finite (Qnat a / Qnat b)).
Proof.
  intros Hb. unfold truediv, of_len. rewrite Qis_zero_Qnat.
  case_bool_decide; [lia|done].
Qed.

Lemma ratio_times100_bounds (a b : nat) :
  a ≤ b → 0 < b →
  (0 <= Qnat a / Qnat b * 100)%Q ∧ (Qnat a / Qnat b * 100 <= 100)%Q.
Proof.
  intros Hab Hb. pose proof (Qnat_pos b Hb) as Hbq.
  assert (0 <= Qnat a / Qnat b)%Q as H0.
  { apply Qle_shift_div_l; [done|]. rewrite Qmult_0_l. apply Qnat_nonneg. }
  assert (Qnat a / Qnat b <= 1)%Q as H1.
  { apply Qle_shift_div_r; [done|]. rewrite Qmult_1_l. by apply Qnat_le. }
  split.
  - apply Qmult_le_0_compat; [done|]. by compute.
  - apply Qle_trans with (1 * 100)%Q; [|by compute].
    apply Qmult_le_compat_r; [done|]. by compute.
Qed.

Lemma ratio_full (b : nat) : 0 < b → (Qnat b / Qnat b * 100 == 100)%Q.
Proof.
  intros Hb. pose proof (Qnat_pos b Hb) as Hbq.
  unfold Qdiv. rewrite Qmult_inv_r; [reflexivity|].
  intros Hz. rewrite Hz in Hbq. by apply Qlt_irrefl in Hbq.
Qed.

Lemma loaded_products_length (products : list string)
    (m : gmap string Dataset) :
  length (loaded_products products m) = length (domain_datasets products m).
Proof.
  unfold loaded_products, domain_datasets.
  induction products as [|p products IH]; [done|].
  rewrite filter_cons. simpl.
  destruct (m !! p) as [d|] eqn:Hp.
  - rewrite decide_True by done. simpl. by rewrite IH.
  - rewrite decide_False by (by intros [? ?]). done.
Qed.

Lemma loaded_products_field (field : Dataset → nat)
    (products : list string) (m : gmap string Dataset) :
  field_of field m <$> loaded_products products m
  = field <$> domain_datasets products m.
Proof.
  unfold loaded_products, domain_datasets.
  induction products as [|p products IH]; [done|].
  rewrite filter_cons. simpl.
  destruct (m !! p) as [d|] eqn:Hp.
  - rewrite decide_True by done. rewrite !fmap_cons. f_equal; [|exact IH].
    unfold field_of. by rewrite Hp.
  - rewrite decide_False by (by intros [? ?]). done.
Qed.

Lemma loaded_products_le (products : list string) (m : gmap string Dataset) :
  length (loaded_products products m) ≤ length products.
Proof. apply length_filter. Qed.

Lemma domain_data_rows (m : gmap string Dataset) (domain : string)
    (products : list string) :
  (domain, products) ∈ PRODUCT_CATEGORIES →
  domain_summary domain products m ∈ domain_data m.
Proof.
  intros Hin. unfold domain_data.
  apply list_elem_of_fmap. by exists (domain, products).
Qed.

(** C3. In the summary of a domain the loaded count is at most the
    catalogued count; the coverage is a number between 0 and 100, namely
    loaded / total × 100, 0 for an empty product list and 100 when
    everything catalogued is loaded; the average column count is the mean of
    the stored column counts of the loaded products, 0 when none is loaded.
    The rows shown for the catalog are such summaries. *)
Theorem domain_summary_correct (domain : string) (products : list string)
    (m : gmap string Dataset) :
  let r := domain_summary domain products m in
  Products r ≤ Total_Products r
  ∧ Total_Products r = length products
  ∧ Products r = length (domain_datasets products m)
  ∧ (∃ q, Coverage r = Ok (Finite q)
          ∧ (0 <= q)%Q ∧ (q <= 100)%Q
          ∧ (Total_Products r = 0 → (q == 0)%Q)
          ∧ (0 < Total_Products r →
             (q == Qnat (Products r) / Qnat (Total_Products r) * 100)%Q)
          ∧ (Products r = Total_Products r → 0 < Total_Products r →
             (q == 100)%Q))
  ∧ (∃ a, Avg_Columns r = Ok (Finite a)
          ∧ (Products r = 0 → (a == 0)%Q)
          ∧ (0 < Products r →
             (a == Qnat (sum_list (columns <$> domain_datasets products m))
                   / Qnat (Products r))%Q))
  ∧ ((domain, products) ∈ PRODUCT_CATEGORIES → r ∈ domain_data m).
Proof.
  intros r. subst r. cbn [domain_summary Products Total_Products Coverage
    Avg_Columns].
  pose proof (loaded_products_le products m) as Hle.
  set (loaded := loaded_products products m) in *.
  split_and!; [done|done|apply loaded_products_length| | |
               apply domain_data_rows].
  - unfold coverage_pct. destruct products as [|p products'] eqn:Hp.
    + exists 0%Q. simpl. split_and!; try done. simpl in Hle. lia.
    + rewrite <- Hp in *. assert (0 < length products) by (subst; simpl; lia).
      replace (truthy_list products) with true by (by subst).
      rewrite truediv_len by done. simpl.
      eexists. split; [reflexivity|].
      destruct (ratio_times100_bounds (length loaded) (length products))
        as [H0 H100]; [done..|].
      split_and!; try done; [lia|].
      intros -> _. by apply ratio_full.
  - unfold avg_cols. destruct loaded as [|p loaded'] eqn:Hl.
    + exists 0%Q. simpl. split_and!; try done. lia.
    + rewrite <- Hl in *. assert (0 < length loaded) by (rewrite Hl; simpl; lia).
      replace (truthy_list loaded) with true by (by rewrite Hl).
      rewrite truediv_len by done.
      eexists. split; [reflexivity|]. split; [lia|]. intros _.
      subst loaded. by rewrite loaded_products_field.
Qed.

(** ** Percentages *)

(** The guarded percentages of the overview and of the conversion metrics
    never raise, and are 0 when the whole is 0. *)
Lemma coverage_pct_never_raises (loaded products : list string) :
  ∃ q, coverage_pct loaded products = Ok (Finite q)
       ∧ (length products = 0 → q = 0%Q).
Proof.
  unfold coverage_pct. destruct products as [|p products'] eqn:Hp.
  - by exists 0%Q.
  - rewrite <- Hp. replace (truthy_list products) with true by (by subst).
    rewrite truediv_len by (subst; simpl; lia).
    eexists. split; [reflexivity|]. subst. simpl. lia.
Qed.

Lemma truediv_pos_divisor (part whole : pynum) :
  num_pos whole = true → ∃ x, truediv part whole = Ok x.
Proof.
  unfold num_pos, Qis_pos, truediv, Qis_zero. intros Hw.
  assert ((Qnum (num_val whole) =? 0)%Z = false) as Hz
    by (apply Z.eqb_neq; apply Z.ltb_lt in Hw; lia).
  destruct part, whole; simpl in *; rewrite Hz; by eexists.
Qed.

Lemma acceptance_rate_never_raises (total_enrolled total_applicants : pynum) :
  ∃ x, acceptance_rate total_enrolled total_applicants = Ok x
       ∧ (num_pos total_applicants = false → x = Finite 0).
Proof.
  unfold acceptance_rate. destruct (num_pos total_applicants) eqn:Hw.
  - destruct (truediv_pos_divisor total_enrolled total_applicants Hw)
      as [x ->]. by eexists.
  - by eexists.
Qed.

Lemma graduation_rate_never_raises (total_graduates total_enrolled : pynum) :
  ∃ x, graduation_rate total_graduates total_enrolled = Ok x
       ∧ (num_pos total_enrolled = false → x = Finite 0).
Proof.
  unfold graduation_rate. destruct (num_pos total_enrolled) eqn:Hw.
  - destruct (truediv_pos_divisor total_graduates total_enrolled Hw)
      as [x ->]. by eexists.
  - by eexists.
Qed.

(** The workforce shares have no guard: on a table without rows the first
    one divides by zero. *)
Lemma workforce_share_zero_rows (count : Q) :
  workforce_share (Py count) (of_len 0) = Raise ZeroDivisionError.
Proof. reflexivity. Qed.

Lemma index_of_is_Some (c : string) (cols : list string) :
  c ∈ cols → is_Some (index_of c cols).
Proof.
  induction cols as [|c' cols IH]; simpl; [by intros ?%elem_of_nil|].
  case_decide; [by eexists|].
  intros [->|Hin]%elem_of_cons; [done|].
  destruct (IH Hin) as [i ->]. by eexists.
Qed.

(** Counting the cells equal to a value never raises. *)
Lemma count_equal_never_raises (df : DataFrame) (c v : string) :
  ∃ n, count_equal df c v = Ok n.
Proof.
  unfold count_equal, has_column. case_bool_decide as Hc; [|by eexists].
  unfold df_col. destruct (index_of_is_Some c _ Hc) as [i ->]. by eexists.
Qed.

(** Any staff table without rows and without the gender column makes the
    workforce overview raise. *)
Lemma workforce_overview_zero_rows (df : DataFrame) :
  df_len df = 0 → has_column df "Emp_Gender" = false →
  workforce_overview df = Raise ZeroDivisionError.
Proof.
  intros Hlen Hcol. unfold workforce_overview.
  destruct (count_equal_never_raises df "Emp_Nationality" "AE") as [u ->].
  unfold count_equal. rewrite Hcol, Hlen. reflexivity.
Qed.

(** C4 at a staff table with a header and no rows: the workforce shares
    raise [ZeroDivisionError] when the gender column is absent, and are NaN
    when the counted columns are present; the guarded percentages give 0
    on a zero whole, and 5 of 10 is 50. *)
Theorem workforce_shares_divide_by_zero :
  df_len empty_staff_table = 0
  ∧ workforce_overview empty_staff_table = Raise ZeroDivisionError
  ∧ workforce_overview empty_staff_table_full
    = Ok {| male_pct := NaN; female_pct := NaN;
            uae_pct := NaN; expat_pct := NaN |}
  ∧ coverage_pct [] [] = Ok (Finite 0)
  ∧ acceptance_rate (Py 0) (Py 0) = Ok (Finite 0)
  ∧ acceptance_rate (Py 5) (Py 0) = Ok (Finite 0)
  ∧ (∃ q, acceptance_rate (Py 5) (Py 10) = Ok (Finite q) ∧ (q == 50)%Q).
Proof.
  split_and!; try reflexivity.
  eexists. split; [reflexivity|]. reflexivity.
Qed.

(** ** Grouped sums *)

(** On a column of numbers with a missing cell, which pandas holds as
    floats, the grouped sum leaves the missing cell out. *)
Lemma groupby_sum_numeric_example :
  groupby_sum {| df_columns := ["g"; "v"];
                 df_rows := [ [CStr "b"; CFloat 2]; [CStr "a"; CFloat 5];
                              [CStr "b"; CNaN]; [CStr "b"; CFloat 3] ] |}
              "g" "v"
  = Ok [(CStr "a", CFloat 5); (CStr "b", CFloat 5)].
Proof. reflexivity. Qed.

(** Integer sums wrap around at 64 bits. *)
Lemma series_sum_wraps :
  series_sum [CInt (2 ^ 63 - 1); CInt 1] = Ok (CInt (- 2 ^ 63)).
Proof. reflexivity. Qed.

Lemma index_of_Some_elem (c : string) (cols : list string) (i : nat) :
  index_of c cols = Some i → c ∈ cols.
Proof.
  revert i. induction cols as [|c' cols IH]; intros i; simpl; [done|].
  case_decide; [subst; left|].
  destruct (index_of c cols) as [j|]; [|done].
  intros _. right. by eapply IH.
Qed.

Lemma df_col_has_column (df : DataFrame) (c : string) (cells : list Cell) :
  df_col df c = Ok cells → has_column df c = true.
Proof.
  unfold df_col, has_column.
  destruct (index_of c (df_columns df)) as [i|] eqn:Hi; [|done].
  intros _. apply bool_decide_eq_true. by eapply index_of_Some_elem.
Qed.

(** Adding up objects that start with a text gives a text or fails. *)
Lemma sum_from_text (s : string) (vals : list Cell) :
  (∃ t, sum_from (CStr s) vals = Ok (CStr t))
  ∨ sum_from (CStr s) vals = Raise TypeError.
Proof.
  revert s. induction vals as [|v vals IH]; intros s; [left; by eexists|].
  destruct v as [z|q|t|]; simpl; try by right.
  apply IH.
Qed.

(** Adding up objects that start with a number fails as soon as a text
    follows. *)
Lemma sum_from_number_then_text (acc : Cell) (vals : list Cell) :
  is_number acc = true → existsb is_nan vals = false →
  existsb is_text vals = true →
  sum_from acc vals = Raise TypeError.
Proof.
  revert acc. induction vals as [|v vals IH]; intros acc Hacc Hnan Htext;
    [done|].
  cbn [existsb] in Hnan, Htext. apply orb_false_iff in Hnan as [Hv Hnan].
  destruct acc as [a|a| |]; try done;
    destruct v as [z|q|t|]; try done; simpl; by apply IH.
Qed.

(** The sum of a column that holds a text is a text, or fails. *)
Lemma series_sum_text_column (cells : list Cell) :
  col_dtype cells = Object →
  (∃ t, series_sum cells = Ok (CStr t)) ∨ series_sum cells = Raise TypeError.
Proof.
  unfold series_sum. intros Hdt. rewrite Hdt.
  assert (existsb is_text cells = true) as Htext.
  { unfold col_dtype in Hdt. destruct (existsb is_text cells); [done|].
    by destruct (forallb is_int cells). }
  clear Hdt. set (f := λ c : Cell, if is_nan c then CInt 0 else c).
  assert (existsb is_nan (map f cells) = false) as Hnan.
  { clear. induction cells as [|c cells IH]; [done|].
    simpl. rewrite IH. by destruct c. }
  assert (existsb is_text (map f cells) = true) as Htext'.
  { clear -Htext. induction cells as [|c cells IH]; [done|].
    simpl in *. apply orb_true_iff in Htext as [Hc|Hrest].
    - by destruct c.
    - rewrite IH by done. apply orb_true_r. }
  destruct (map f cells) as [|v rest]; [done|].
  cbn [existsb] in Hnan, Htext'. apply orb_false_iff in Hnan as [Hv Hnan].
  unfold object_sum. destruct v as [z|q|t|]; try done.
  - right. by apply sum_from_number_then_text.
  - right. by apply sum_from_number_then_text.
  - apply sum_from_text.
Qed.

Lemma lt01_available (m : gmap string Dataset) (info : Dataset) :
  m !! "CHEDS-LT-01" = Some info →
  ∃ products,
    category "Learning and Teaching" = Ok products
    ∧ available products m !! "CHEDS-LT-01" = Some info
    ∧ truthy_dict (available products m) = true.
Proof.
  intros Hm. eexists. split; [reflexivity|].
  assert (available
            ["CHEDS-LT-01"; "CHEDS-LT-02"; "CHEDS-LT-03"; "CHEDS-LT-04";
             "CHEDS-LT-05"; "CHEDS-LT-06"; "CHEDS-LT-07"; "CHEDS-LT-08";
             "CHEDS-LT-09"; "CHEDS-LT-10"; "CHEDS-LT-11"; "CHEDS-LT-12";
             "CHEDS-LT-13"; "CHEDS-LT-14"; "CHEDS-LT-15"; "CHEDS-LT-16";
             "CHEDS-LT-17"; "CHEDS-LT-18"; "CHEDS-LT-19"; "CHEDS-LT-20"] m
          !! "CHEDS-LT-01" = Some info) as Hav.
  { unfold available. apply map_lookup_filter_Some. split; [done|].
    simpl. left. }
  split; [done|].
  unfold truthy_dict. apply bool_decide_eq_true. intros He.
  rewrite He in Hav. by rewrite lookup_empty in Hav.
Qed.

(** Whenever the applicants table is loaded and its count column holds a
    text, the view raises before it gets to the grouped sum: at the
    applicants figure ([int] of a text that is not a number), in the sum
    itself (texts next to numbers), or at [total_applicants > 0]. *)
Lemma text_applicants_column_raises (m : gmap string Dataset)
    (info : Dataset) (cells : list Cell) :
  m !! "CHEDS-LT-01" = Some info →
  df_col (data info) "App_Applicants" = Ok cells →
  col_dtype cells = Object →
  ∃ e, display_learning_teaching m = Raise e
       ∧ (e = ValueError ∨ e = TypeError).
Proof.
  intros Hm Hcol Hdt.
  destruct (lt01_available m info Hm) as (products & Hcat & Hav & Htruthy).
  unfold display_learning_teaching. rewrite Hcat. cbn [mbind result_bind].
  rewrite Htruthy, Hav.
  unfold applicants_total.
  rewrite (df_col_has_column _ _ _ Hcol), Hcol. cbn [mbind result_bind].
  destruct (series_sum_text_column cells Hdt) as [[t Hsum]|Hsum];
    rewrite Hsum; cbn [fmap result_fmap mbind result_bind scalar_of_cell].
  - cbn [py_int]. destruct (int_of_str t) as [z|e] eqn:Hint.
    + cbn [mbind result_bind fst]. eexists. split; [reflexivity|by right].
    + exists e. split; [reflexivity|]. left.
      unfold int_of_str in Hint.
      destruct (match rstrip (lstrip t) with
                | String "-" r => (true, r)
                | String "+" r => (false, r)
                | _ => (false, rstrip (lstrip t))
                end) as [negative ds].
      destruct (digits 0 false ds); congruence.
  - eexists. split; [reflexivity|by right].
Qed.

(** On a column of integers the view gets to the grouped sum: the
    applicants figure is the column total and the institutions come in key
    order, the row without an institution left out. *)
Lemma numeric_applicants_column_example :
  ∃ v, display_learning_teaching
         {[ "CHEDS-LT-01" := mk_dataset applicants_counts_table
                                        "CHEDS-LT-01_applicants.csv" ]}
       = Ok (Some v)
       ∧ lt_applicants_shown v = Some 234%Z
       ∧ lt_conversion v = None
       ∧ lt_inst_data v
         = Some [(CStr "AUS", CInt 75); (CStr "UAEU", CInt 150)].
Proof.
  destruct (lt01_available
              {[ "CHEDS-LT-01" := mk_dataset applicants_counts_table
                                             "CHEDS-LT-01_applicants.csv" ]}
              _ (lookup_singleton_eq _ _))
    as (products & Hcat & Hav & Htruthy).
  unfold display_learning_teaching. rewrite Hcat. cbn [mbind result_bind].
  rewrite Htruthy, Hav.
  assert (∀ k, k ≠ "CHEDS-LT-01" →
               table_len (available products
                 {[ "CHEDS-LT-01" := mk_dataset applicants_counts_table
                                       "CHEDS-LT-01_applicants.csv" ]}) k = 0)
    as Hlen.
  { intros k Hk. unfold table_len, available.
    rewrite map_lookup_filter, lookup_singleton_ne by done. done. }
  rewrite !Hlen by done. eexists. split; [reflexivity|]. by split_and!.
Qed.

(** C7. The applicants panel does not leave out a cell that is not a
    number: with the rows (UAEU, 120), (UAEU, unknown), (AUS, 75) loaded as
    CHEDS-LT-01, the count column is a text column, its sum is the text
    120unknown75, [int] of that text raises [ValueError] at the applicants
    figure, and the view stops there, before the grouped sum per
    institution is computed. *)
Theorem applicants_text_column_stops_the_view :
  datasets applicants_session !! "CHEDS-LT-01"
  = Some (mk_dataset applicants_table "CHEDS-LT-01_applicants.csv")
  ∧ (col_dtype <$> df_col applicants_table "App_Applicants") = Ok Object
  ∧ applicants_total applicants_table = Ok (SStr "120unknown75")
  ∧ py_int (SStr "120unknown75") = Raise ValueError
  ∧ py_gt0 (SStr "120unknown75") = Raise TypeError
  ∧ display_learning_teaching (datasets applicants_session)
    = Raise ValueError.
Proof.
  assert (datasets applicants_session !! "CHEDS-LT-01"
          = Some (mk_dataset applicants_table "CHEDS-LT-01_applicants.csv"))
    as Hm by (by vm_compute).
  split_and!; [done|reflexivity..|].
  destruct (lt01_available _ _ Hm) as (products & Hcat & Hav & Htruthy).
  unfold display_learning_teaching. rewrite Hcat. cbn [mbind result_bind].
  rewrite Htruthy, Hav. reflexivity.
Qed.

(** ** Value counts *)

Section tally.
Implicit Types (v x : Cell) (acc : list (Cell * nat)) (col : list Cell).

Lemma stored_count_tally v x acc :
  stored_count v (tally x acc)
  = if decide (v = x) then S (stored_count v acc) else stored_count v acc.
Proof.
  induction acc as [|[k n] rest IH]; simpl.
  - repeat case_decide; congruence.
  - destruct (decide (k = x)) as [->|Hkx]; simpl.
    + repeat case_decide; congruence.
    + rewrite IH. repeat case_decide; congruence.
Qed.

Lemma tally_keys v x acc :
  v ∈ (tally x acc).*1 ↔ v = x ∨ v ∈ acc.*1.
Proof.
  induction acc as [|[k n] rest IH]; simpl.
  - rewrite list_elem_of_singleton. set_solver.
  - destruct (decide (k = x)) as [->|Hkx]; simpl.
    + set_solver.
    + rewrite !elem_of_cons, IH. naive_solver.
Qed.

Lemma tally_NoDup x acc : NoDup acc.*1 → NoDup (tally x acc).*1.
Proof.
  induction acc as [|[k n] rest IH]; simpl.
  - intros _. apply NoDup_singleton.
  - rewrite NoDup_cons. intros [Hk Hrest].
    destruct (decide (k = x)) as [->|Hkx]; simpl.
    + by apply NoDup_cons.
    + apply NoDup_cons. split; [|by apply IH].
      rewrite tally_keys. naive_solver.
Qed.

Lemma tally_positive x acc :
  Forall (λ p, 0 < p.2) acc → Forall (λ p, 0 < p.2) (tally x acc).
Proof.
  induction acc as [|[k n] rest IH]; simpl.
  - intros _. repeat constructor.
  - rewrite Forall_cons. intros [Hn Hrest].
    destruct (decide (k = x)); constructor; simpl in *; auto with lia.
Qed.

Lemma elem_of_stored v n acc :
  NoDup acc.*1 → (v, n) ∈ acc ↔ v ∈ acc.*1 ∧ n = stored_count v acc.
Proof.
  induction acc as [|[k m] rest IH]; simpl.
  - intros _. set_solver.
  - rewrite NoDup_cons. intros [Hk Hrest].
    rewrite !elem_of_cons, (IH Hrest). case_decide as Hkv.
    + subst k. split; [|naive_solver].
      intros [[= ->]|[? _]]; [by auto|done].
    + naive_solver.
Qed.

Lemma counts_first_seen_snoc col x :
  counts_first_seen (col ++ [x])
  = if is_nan x then counts_first_seen col
    else tally x (counts_first_seen col).
Proof. unfold counts_first_seen. by rewrite foldl_snoc. Qed.

Lemma occurrences_snoc v col x :
  occurrences v (col ++ [x])
  = if decide (v = x) then S (occurrences v col) else occurrences v col.
Proof.
  unfold occurrences. rewrite filter_app, length_app, filter_cons.
  simpl. repeat case_decide; simpl; try congruence; lia.
Qed.

Lemma counts_first_seen_stored v col :
  v ≠ CNaN → stored_count v (counts_first_seen col) = occurrences v col.
Proof.
  intros Hv. induction col as [|x col IH] using rev_ind; [done|].
  rewrite counts_first_seen_snoc, occurrences_snoc.
  destruct x; simpl; rewrite ?stored_count_tally, ?IH;
    repeat case_decide; congruence.
Qed.

Lemma counts_first_seen_keys v col :
  v ∈ (counts_first_seen col).*1 ↔ v ∈ col ∧ v ≠ CNaN.
Proof.
  induction col as [|x col IH] using rev_ind.
  - set_solver.
  - rewrite counts_first_seen_snoc, elem_of_app, list_elem_of_singleton.
    destruct x; simpl; rewrite ?tally_keys, IH; naive_solver.
Qed.

Lemma counts_first_seen_NoDup col : NoDup (counts_first_seen col).*1.
Proof.
  induction col as [|x col IH] using rev_ind; [constructor|].
  rewrite counts_first_seen_snoc.
  destruct x; simpl; try done; by apply tally_NoDup.
Qed.

Lemma counts_first_seen_positive col :
  Forall (λ p, 0 < p.2) (counts_first_seen col).
Proof.
  induction col as [|x col IH] using rev_ind; [constructor|].
  rewrite counts_first_seen_snoc.
  destruct x; simpl; try done; by apply tally_positive.
Qed.

Lemma occurrences_positive v col : 0 < occurrences v col ↔ v ∈ col.
Proof.
  unfold occurrences. induction col as [|x col IH]; simpl.
  - split; [lia|by intros ?%elem_of_nil].
  - rewrite filter_cons, elem_of_cons. case_decide; simpl.
    + split; [auto|lia].
    + rewrite IH. naive_solver.
Qed.

(** The tally holds each non-missing value of the column once, with the
    number of its occurrences. *)
Lemma elem_of_counts_first_seen v n col :
  (v, n) ∈ counts_first_seen col
  ↔ v ≠ CNaN ∧ n = occurrences v col ∧ 0 < n.
Proof.
  rewrite elem_of_stored by apply counts_first_seen_NoDup.
  rewrite counts_first_seen_keys. split.
  - intros [[Hin Hv] ->]. rewrite counts_first_seen_stored by done.
    split_and!; [done..|]. by apply occurrences_positive.
  - intros (Hv & -> & Hpos). rewrite counts_first_seen_stored by done.
    split_and!; [|done..]. by apply occurrences_positive.
Qed.
End tally.

#[local] Instance count_ge_transitive : Transitive count_ge.
Proof. unfold count_ge. intros x y z ??. lia. Qed.

Lemma insert_first_perm x l : insert_first x l ≡ₚ x :: l.
Proof.
  induction l as [|y rest IH]; simpl; [done|].
  case_bool_decide; [done|]. by rewrite IH, Permutation_swap.
Qed.

Lemma insert_first_sorted x l :
  StronglySorted count_ge l → StronglySorted count_ge (insert_first x l).
Proof.
  induction 1 as [|y rest Hrest IH Hy]; simpl.
  - repeat constructor.
  - case_bool_decide as Hxy.
    + constructor; [by constructor|]. constructor; [done|].
      eapply Forall_impl; [exact Hy|]. unfold count_ge in *. intros; lia.
    + constructor; [done|]. rewrite insert_first_perm.
      constructor; [unfold count_ge; lia|done].
Qed.

Lemma stable_sort_desc_contract : sort_contract stable_sort_desc.
Proof.
  intros l. unfold stable_sort_desc.
  induction l as [|x l [IHp IHs]]; simpl; [by split; [|constructor]|].
  split; [by rewrite insert_first_perm, IHp|by apply insert_first_sorted].
Qed.

(** * Further properties of the loaders and the registry *)

(** ** Start-up load *)

Lemma startup_attempted (dir : Directory) (s : SessionState) :
  auto_load_attempted (startup dir s) = true.
Proof.
  unfold startup. destruct (auto_load_attempted s) eqn:Ha; [done|].
  destruct dir as [csv_files|]; [|done].
  destruct (truthy_list csv_files && negb _); [|done].
  by destruct (truthy_dict _).
Qed.

(** X1. The start-up load runs at most once in a session: once it has
    run, running it again on any directory changes nothing; and it never
    replaces a registry that is already loaded. *)
Theorem startup_runs_once (dir1 dir2 : Directory) (s : SessionState) :
  startup dir2 (startup dir1 s) = startup dir1 s
  ∧ auto_load_attempted (startup dir1 s) = true
  ∧ (data_loaded s = true →
     datasets (startup dir1 s) = datasets s
     ∧ data_loaded (startup dir1 s) = true).
Proof.
  split_and!.
  - unfold startup at 1. by rewrite startup_attempted.
  - apply startup_attempted.
  - intros Hl. unfold startup. destruct (auto_load_attempted s); [done|].
    destruct dir1 as [csv_files|]; [|done]. cbn [data_loaded].
    rewrite Hl. by rewrite andb_false_r.
Qed.

Lemma reload_loop_all_parse (csv_files : list File)
    (acc : gmap string Dataset) :
  Forall (λ f, parses f = true) csv_files →
  reload_loop csv_files acc = Ok (foldl startup_load_file acc csv_files).
Proof.
  intros Hall. revert acc.
  induction Hall as [|f rest Hf _ IH]; intros acc; [done|].
  simpl. unfold startup_load_file at 2. unfold parses in Hf.
  destruct (read_csv f) as [df|e]; [|done]. apply IH.
Qed.

Lemma startup_loop_non_empty (csv_files : list File)
    (acc : gmap string Dataset) :
  Forall (λ f, parses f = true) csv_files → csv_files ≠ [] ∨ acc ≠ ∅ →
  foldl startup_load_file acc csv_files ≠ ∅.
Proof.
  intros Hall. revert acc.
  induction Hall as [|f rest Hf _ IH]; intros acc Hne.
  - by destruct Hne.
  - simpl. apply IH. right. unfold startup_load_file. unfold parses in Hf.
    destruct (read_csv f) as [df|e]; [|done]. apply insert_non_empty.
Qed.

(** X2. On a fresh session the start-up load stores what a reload of the
    readable files alone would store: the files pandas rejects are left
    out, and when none is readable the registry stays empty and the
    session unloaded. *)
Theorem startup_loads_the_readable_files (csv_files : list File)
    (s : SessionState) :
  auto_load_attempted s = false → data_loaded s = false →
  let readable := filter (λ f, parses f = true) csv_files in
  let started := startup (Some csv_files) s in
  (readable ≠ [] →
   auto_load_csv_files (Some readable) s
   = ({| data_loaded := true; datasets := datasets started;
         auto_load_attempted := false |}, Ok true)
   ∧ data_loaded started = true)
  ∧ (readable = [] →
     datasets started = datasets s ∧ data_loaded started = false).
Proof.
  intros Ha Hl readable started.
  assert (Forall (λ f, parses f = true) readable) as Hall.
  { apply Forall_forall. intros f Hf.
    by apply list_elem_of_filter in Hf as [? _]. }
  assert (foldl startup_load_file ∅ csv_files
          = foldl startup_load_file ∅ readable) as Hfold
    by apply startup_loop_skips_failures.
  subst started. unfold startup. rewrite Ha. cbn [data_loaded].
  rewrite Hl, andb_true_r. rewrite Hfold.
  split.
  - intros Hne.
    assert (csv_files ≠ []) as Hfiles.
    { intros ->. by apply Hne. }
    replace (truthy_list csv_files) with true by (by destruct csv_files).
    pose proof (startup_loop_non_empty readable ∅ Hall (or_introl Hne)) as Hd.
    unfold truthy_dict. rewrite bool_decide_eq_true_2 by done.
    cbn [datasets data_loaded]. split; [|done].
    unfold auto_load_csv_files.
    replace (truthy_list readable) with true by (by destruct readable).
    rewrite (reload_loop_all_parse readable ∅ Hall). by rewrite Ha.
  - intros Hnil. rewrite Hnil. simpl.
    destruct (truthy_list csv_files); simpl; [|done].
    unfold truthy_dict. rewrite bool_decide_eq_false_2 by (by intros []).
    done.
Qed.

Lemma startup_loads_the_readable_files_witness :
  let batch := [lt01_file; malformed_file; hr21_file] in
  auto_load_attempted initial_state = false
  ∧ data_loaded initial_state = false
  ∧ auto_load_csv_files (Some [lt01_file; hr21_file]) initial_state
    = ({| data_loaded := true;
          datasets := datasets (startup (Some batch) initial_state);
          auto_load_attempted := false |}, Ok true).
Proof.
  split_and!; [reflexivity..|].
  apply (startup_loads_the_readable_files
           [lt01_file; malformed_file; hr21_file] initial_state);
    [reflexivity|reflexivity|discriminate].
Defined.

(** ** Reload *)

Lemma reload_loop_first_error (csv_files : list File)
    (acc : gmap string Dataset) :
  match first_error csv_files with
  | Some e => reload_loop csv_files acc = Raise e
  | None => reload_loop csv_files acc
            = Ok (foldl startup_load_file acc csv_files)
  end.
Proof.
  revert acc. induction csv_files as [|f rest IH]; intros acc; [done|].
  simpl. destruct (read_csv f) as [df|e] eqn:Hf; simpl; [|done].
  replace (startup_load_file acc f)
    with (<[directory_product_id f:=mk_dataset df (name f)]> acc)
    by (unfold startup_load_file; by rewrite Hf).
  apply IH.
Qed.

Lemma first_error_None (csv_files : list File) :
  first_error csv_files = None ↔ Forall (λ f, parses f = true) csv_files.
Proof.
  induction csv_files as [|f rest IH]; simpl.
  - split; [constructor|done].
  - rewrite Forall_cons, <- IH. unfold parses.
    destruct (read_csv f); naive_solver.
Qed.

(** X3. A reload is all or nothing.  It raises exactly when pandas rejects
    one of the files, with the exception of the first such file; it
    returns [True] exactly when there is at least one file and all are
    readable; it returns [False] exactly when no directory or no file is
    found; and unless it returns [True] the session is left as it was. *)
Theorem reload_all_or_nothing (dir : Directory) (s : SessionState) :
  let out := auto_load_csv_files dir s in
  (∀ e, out.2 = Raise e
        ↔ ∃ csv_files, dir = Some csv_files ∧ first_error csv_files = Some e)
  ∧ (out.2 = Ok true
     ↔ ∃ csv_files, dir = Some csv_files ∧ csv_files ≠ []
                    ∧ Forall (λ f, parses f = true) csv_files)
  ∧ (out.2 = Ok false ↔ dir = None ∨ dir = Some [])
  ∧ (out.2 ≠ Ok true → out.1 = s)
  ∧ (out.2 = Ok true → data_loaded out.1 = true ∧ datasets out.1 ≠ ∅).
Proof.
  intros out. subst out. unfold auto_load_csv_files.
  destruct dir as [[|f rest]|]; cbn [truthy_list].
  - simpl. split_and!; try done; naive_solver.
  - pose proof (reload_loop_first_error (f :: rest) ∅) as Hloop.
    pose proof (first_error_None (f :: rest)) as Hnone.
    destruct (first_error (f :: rest)) as [e|] eqn:He; rewrite Hloop.
    2: assert (Forall (λ f, parses f = true) (f :: rest)) as Hall
         by (by apply Hnone).
    2: assert (foldl startup_load_file ∅ (f :: rest) ≠ ∅) as Hds
         by (apply startup_loop_non_empty; [done|by left]).
    2: set (ds := foldl startup_load_file ∅ (f :: rest)) in *.
    all: simpl.
    + split_and!; try done.
      * intros e'. split; [intros [= <-]; by eexists|].
        intros (? & [= <-] & Hfe). congruence.
      * split; [done|]. intros (? & [= <-] & _ & Hall).
        apply Hnone in Hall. congruence.
      * split; [done|]. by intros [|].
    + split_and!; try done.
      * intros e'. split; [done|]. intros (? & [= <-] & Hfe). congruence.
      * split; [intros _|done]. by eexists.
      * split; [done|]. by intros [|].
  - simpl. split_and!; try done; naive_solver.
Qed.

Lemma foldl_load_lookup (csv_files : list File)
    (acc : gmap string Dataset) (k : string) :
  Forall (λ f, parses f = true) csv_files →
  foldl startup_load_file acc csv_files !! k
  = from_option Some (acc !! k) (last_directory_entry k csv_files).
Proof.
  unfold last_directory_entry. intros Hall. revert acc.
  induction Hall as [|f rest Hf _ IH]; intros acc; [done|].
  simpl. rewrite IH. unfold startup_load_file. unfold parses in Hf.
  destruct (read_csv f) as [df|e]; [|done].
  rewrite filter_cons. simpl.
  destruct (decide (directory_product_id f = k)) as [Hk|Hk].
  - rewrite last_cons.
    destruct (last (filter _ (accepted rest))) as [p|]; simpl; [done|].
    by rewrite Hk, lookup_insert_eq.
  - destruct (last (filter _ (accepted rest))) as [p|]; simpl; [done|].
    by rewrite lookup_insert_ne.
Qed.

Lemma accepted_all (csv_files : list File) :
  Forall (λ f, parses f = true) csv_files →
  (accepted csv_files).*1 = csv_files.
Proof.
  induction 1 as [|f rest Hf _ IH]; [done|].
  simpl. unfold parses in Hf. destruct (read_csv f); [|done].
  simpl. by f_equal.
Qed.

Lemma last_directory_entry_None (csv_files : list File) (k : string) :
  k ∉ directory_product_id <$> csv_files →
  last_directory_entry k csv_files = None.
Proof.
  intros Hk. unfold last_directory_entry.
  destruct (last _) as [p|] eqn:Hl; [|done].
  apply last_Some_elem_of, list_elem_of_filter in Hl as [Hp Hin].
  destruct Hk. apply list_elem_of_fmap. exists p.1.
  split; [done|]. by apply accepted_subset.
Qed.

Lemma reload_ok_lookup (csv_files : list File) (s s' : SessionState) :
  auto_load_csv_files (Some csv_files) s = (s', Ok true) →
  Forall (λ f, parses f = true) csv_files
  ∧ ∀ k, datasets s' !! k = last_directory_entry k csv_files.
Proof.
  intros Hre.
  pose proof (reload_loop_first_error csv_files ∅) as Hloop.
  pose proof (first_error_None csv_files) as Hnone.
  unfold auto_load_csv_files in *.
  destruct csv_files as [|f rest]; [done|]. cbn [truthy_list] in *.
  destruct (first_error (f :: rest)) as [e|]; rewrite Hloop in Hre;
    [done|].
  assert (datasets s' = foldl startup_load_file ∅ (f :: rest)) as ->
    by (by injection Hre as <-).
  assert (Forall (λ f, parses f = true) (f :: rest)) as Hall
    by (by apply Hnone).
  split; [done|].
  intros k. rewrite (foldl_load_lookup (f :: rest) ∅ k Hall), lookup_empty.
  by destruct (last_directory_entry k (f :: rest)).
Qed.

(** X4. A reload that returns [True] replaces the registry: afterwards
    each key holds the entry of the last file with that product id, keys
    of no file are absent whatever was loaded before, and the result does
    not depend on the previous session. *)
Theorem reload_replaces_registry (csv_files : list File)
    (s s' : SessionState) :
  auto_load_csv_files (Some csv_files) s = (s', Ok true) →
  (∀ k, datasets s' !! k = last_directory_entry k csv_files)
  ∧ (∀ k, k ∉ directory_product_id <$> csv_files → datasets s' !! k = None)
  ∧ (∀ s0, datasets (auto_load_csv_files (Some csv_files) s0).1
           = datasets s').
Proof.
  intros Hre. destruct (reload_ok_lookup _ _ _ Hre) as [Hall Hlk].
  split_and!; [done| |].
  - intros k Hk. rewrite Hlk. by apply last_directory_entry_None.
  - intros s0. apply map_eq. intros k. rewrite Hlk.
    destruct (auto_load_csv_files (Some csv_files) s0) as [s1 r] eqn:H0.
    assert (r = Ok true) as ->.
    { pose proof (reload_loop_first_error csv_files ∅) as Hloop.
      apply first_error_None in Hall.
      unfold auto_load_csv_files in H0.
      destruct csv_files as [|f rest]; [done|]. cbn [truthy_list] in *.
      rewrite Hall in Hloop. rewrite Hloop in H0. by injection H0 as <- <-. }
    by destruct (reload_ok_lookup _ _ _ H0) as [_ ->].
Qed.

Lemma reload_replaces_registry_witness :
  datasets two_file_session !! "CHEDS-LT-01"
    = last_directory_entry "CHEDS-LT-01" [lt01_file; hr21_file]
  ∧ datasets two_file_session !! "CHEDS-FIN-25" = None.
Proof.
  destruct (reload_replaces_registry [lt01_file; hr21_file]
              initial_state two_file_session eq_refl) as (Hlk & Hnone & _).
  split; [apply Hlk|]. apply Hnone.
  apply (bool_decide_unpack _). vm_compute. exact I.
Defined.

Lemma length_remove_dups_le {A} `{EqDecision A} (l : list A) :
  length (remove_dups l) ≤ length l.
Proof.
  induction l as [|x l IH]; simpl; [done|].
  case_decide; simpl; lia.
Qed.

Lemma length_remove_dups_eq {A} `{EqDecision A} (l : list A) :
  length (remove_dups l) = length l ↔ NoDup l.
Proof.
  induction l as [|x l IH]; simpl.
  - split; [constructor|done].
  - pose proof (length_remove_dups_le l). rewrite NoDup_cons.
    case_decide; simpl; [split; [lia|tauto]|].
    rewrite <- IH. split; [intros [=]; by split|intros [_ ->]; done].
Qed.

Lemma size_list_to_set_remove_dups (l : list string) :
  size (list_to_set l : gset string) = length (remove_dups l).
Proof.
  rewrite <- (size_list_to_set (C:=gset string)) by apply NoDup_remove_dups.
  f_equal. apply set_eq. intros k.
  by rewrite !elem_of_list_to_set, elem_of_remove_dups.
Qed.

Lemma last_directory_entry_is_Some (csv_files : list File) (k : string) :
  Forall (λ f, parses f = true) csv_files →
  is_Some (last_directory_entry k csv_files)
  ↔ k ∈ directory_product_id <$> csv_files.
Proof.
  intros Hall. unfold last_directory_entry.
  rewrite fmap_is_Some, last_is_Some. split.
  - intros Hne. destruct (filter _ _) as [|p l] eqn:Hf; [done|].
    assert (p ∈ filter (λ p : File * DataFrame, directory_product_id p.1 = k)
                       (accepted csv_files)) as Hp by (rewrite Hf; left).
    apply list_elem_of_filter in Hp as [Hk Hin].
    apply list_elem_of_fmap. exists p.1. split; [done|].
    by apply accepted_subset.
  - intros (f & -> & Hf)%list_elem_of_fmap.
    rewrite <- (accepted_all csv_files Hall) in Hf.
    apply list_elem_of_fmap in Hf as (p & -> & Hp).
    intros Hnil.
    assert (p ∈ filter (λ q : File * DataFrame,
                          directory_product_id q.1 = directory_product_id p.1)
                       (accepted csv_files)) as Hin
      by (by apply list_elem_of_filter).
    rewrite Hnil in Hin. by apply elem_of_nil in Hin.
Qed.

(** X5. After a reload that returns [True] the registry keys are the
    product ids of the files, so the count the sidebar reports
    ([len(st.session_state.datasets)]) is at most the number of files, and
    equals it exactly when no two files share a product id. *)
Theorem reload_counts_distinct_ids (csv_files : list File)
    (s s' : SessionState) :
  auto_load_csv_files (Some csv_files) s = (s', Ok true) →
  dom (datasets s') = list_to_set (directory_product_id <$> csv_files)
  ∧ size (datasets s') ≤ length csv_files
  ∧ (size (datasets s') = length csv_files
     ↔ NoDup (directory_product_id <$> csv_files)).
Proof.
  intros Hre. destruct (reload_ok_lookup _ _ _ Hre) as [Hall Hlk].
  assert (dom (datasets s')
          = list_to_set (directory_product_id <$> csv_files)) as Hdom.
  { apply set_eq. intros k.
    rewrite elem_of_dom, Hlk, elem_of_list_to_set.
    by apply last_directory_entry_is_Some. }
  split; [done|].
  rewrite <- size_dom, Hdom, size_list_to_set_remove_dups.
  rewrite <- (length_fmap directory_product_id csv_files).
  split; [apply length_remove_dups_le|apply length_remove_dups_eq].
Qed.

Lemma reload_counts_distinct_ids_witness :
  size (datasets two_file_session) ≤ 2
  ∧ (size (datasets two_file_session) = 2
     ↔ NoDup (directory_product_id <$> [lt01_file; hr21_file])).
Proof.
  apply (reload_counts_distinct_ids [lt01_file; hr21_file]
           initial_state two_file_session eq_refl).
Defined.

(** ** What every session keeps *)

Lemma string_app_assoc (a b c : string) :
  ((a ++ b) ++ c = a ++ (b ++ c))%string.
Proof.
  induction a as [|x a IH]; [done|].
  change (String x ((a +:+ b) +:+ c) = String x (a +:+ b +:+ c)).
  by rewrite IH.
Qed.

Lemma directory_entry_ok (f : File) (df : DataFrame) :
  entry_ok (directory_product_id f) (mk_dataset df (name f)).
Proof.
  unfold entry_ok. split_and!; [|  |done..].
  - apply first_token_no_sep.
  - destruct (directory_product_id_spec f) as (_ & (rest & Hstem & _) & _).
    destruct (stem_prefix (name f)) as [suffix Hname].
    exists (rest ++ suffix)%string. cbn [filename mk_dataset].
    rewrite Hname at 1. rewrite Hstem at 1. apply string_app_assoc.
Qed.

Lemma upload_entry_ok (f : File) (df : DataFrame) :
  entry_ok (upload_product_id f) (mk_dataset df (name f)).
Proof.
  unfold entry_ok. split_and!; [|  |done..].
  - apply first_token_no_sep.
  - destruct (first_token_prefix underscore (name f)) as (rest & Hn & _).
    by exists rest.
Qed.

Lemma startup_loop_entries (csv_files : list File)
    (acc : gmap string Dataset) :
  map_Forall entry_ok acc →
  map_Forall entry_ok (foldl startup_load_file acc csv_files).
Proof.
  revert acc. induction csv_files as [|f rest IH]; intros acc Hacc; [done|].
  simpl. apply IH. unfold startup_load_file.
  destruct (read_csv f) as [df|e]; [|done].
  apply map_Forall_insert_2; [apply directory_entry_ok|done].
Qed.

Lemma reload_loop_entries (csv_files : list File)
    (acc ds : gmap string Dataset) :
  map_Forall entry_ok acc → reload_loop csv_files acc = Ok ds →
  map_Forall entry_ok ds.
Proof.
  revert acc. induction csv_files as [|f rest IH]; intros acc Hacc; simpl.
  - by intros [= <-].
  - destruct (read_csv f) as [df|e]; simpl; [|done].
    apply IH, map_Forall_insert_2; [apply directory_entry_ok|done].
Qed.

Lemma upload_loop_entries (uploaded_files : list File)
    (ds : gmap string Dataset) :
  map_Forall entry_ok ds →
  map_Forall entry_ok (upload_loop uploaded_files ds).1.
Proof.
  revert ds. induction uploaded_files as [|f rest IH]; intros ds Hds;
    simpl; [done|].
  destruct (read_csv f) as [df|e]; simpl; [|done].
  apply IH, map_Forall_insert_2; [apply upload_entry_ok|done].
Qed.

Lemma step_entries (s : SessionState) (a : action) :
  map_Forall entry_ok (datasets s) →
  map_Forall entry_ok (datasets (step s a).1).
Proof.
  intros Hs. destruct a as [dir|dir|fs]; simpl.
  - unfold startup. destruct (auto_load_attempted s); [done|].
    destruct dir as [csv_files|]; [|done].
    destruct (truthy_list csv_files && negb _); [|done].
    destruct (truthy_dict _); [|done]. simpl.
    apply startup_loop_entries, map_Forall_empty.
  - unfold auto_load_csv_files.
    destruct dir as [csv_files|]; [|done].
    destruct (truthy_list csv_files); [|done].
    destruct (reload_loop csv_files ∅) as [ds|e] eqn:Hloop; [|done].
    simpl. eapply reload_loop_entries; [|done]. apply map_Forall_empty.
  - destruct (upload fs s) as [s1 r] eqn:Hu. simpl.
    replace s1 with (upload fs s).1 by (by rewrite Hu).
    rewrite upload_datasets. by apply upload_loop_entries.
Qed.

Lemma visited_entries (s : SessionState) :
  visited s → map_Forall entry_ok (datasets s).
Proof.
  induction 1 as [|s a _ IH]; [apply map_Forall_empty|].
  by apply step_entries.
Qed.

Lemma two_file_session_visited : visited two_file_session.
Proof.
  exact (visited_step initial_state
           (Reload (Some [lt01_file; hr21_file])) visited_init).
Qed.

(** X6. In every session, also after actions that raised, a registry key
    contains no underscore and is the beginning of the file name stored
    in its entry. *)
Theorem registry_keys_start_filenames (s : SessionState) :
  visited s →
  ∀ k d, datasets s !! k = Some d →
         contains underscore k = false
         ∧ ∃ rest, filename d = (k ++ rest)%string.
Proof.
  intros Hs k d Hk.
  destruct (visited_entries s Hs k d Hk) as (Hu & Hp & _). by split.
Qed.

Lemma registry_keys_start_filenames_witness :
  visited two_file_session
  ∧ contains underscore "CHEDS-LT-01" = false
  ∧ ∃ rest, "CHEDS-LT-01_x.csv" = ("CHEDS-LT-01" ++ rest)%string.
Proof.
  split; [apply two_file_session_visited|].
  apply (registry_keys_start_filenames two_file_session
           (visited_step initial_state
              (Reload (Some [lt01_file; hr21_file])) visited_init)
           "CHEDS-LT-01"
           (mk_dataset (table ["a"; "b"; "c"] 10) "CHEDS-LT-01_x.csv")).
  reflexivity.
Defined.

(** X7. In every session, also after actions that raised, the row and
    column counts cached in a registry entry are those of its table; so
    the totals on the overview are the sizes of the loaded tables. *)
Theorem cached_counts_match_tables (s : SessionState) :
  visited s →
  (∀ k d, datasets s !! k = Some d →
          rows d = df_len (data d)
          ∧ columns d = length (df_columns (data d)))
  ∧ total_rows (overview_metrics (datasets s))
    = sum_list ((λ d, df_len (data d)) <$> dict_values (datasets s))
  ∧ total_columns (overview_metrics (datasets s))
    = sum_list ((λ d, length (df_columns (data d)))
                  <$> dict_values (datasets s)).
Proof.
  intros Hs. pose proof (visited_entries s Hs) as Hall.
  assert (Forall (λ d, rows d = df_len (data d)
                       ∧ columns d = length (df_columns (data d)))
                 (dict_values (datasets s))) as Hvals.
  { apply Forall_forall. intros d Hd. unfold dict_values in Hd.
    apply list_elem_of_fmap in Hd as ([k d'] & -> & Hin).
    apply elem_of_map_to_list in Hin.
    by destruct (Hall k d' Hin) as (_ & _ & ? & ?). }
  split_and!.
  - intros k d Hk. by destruct (Hall k d Hk) as (_ & _ & ? & ?).
  - simpl. f_equal. apply Forall_fmap_ext_1.
    eapply Forall_impl; [exact Hvals|]. by intros d [? _].
  - simpl. f_equal. apply Forall_fmap_ext_1.
    eapply Forall_impl; [exact Hvals|]. by intros d [_ ?].
Qed.

Lemma cached_counts_match_tables_witness :
  visited two_file_session
  ∧ total_rows (overview_metrics (datasets two_file_session))
    = sum_list ((λ d, df_len (data d))
                  <$> dict_values (datasets two_file_session)).
Proof.
  split; [apply two_file_session_visited|].
  apply (cached_counts_match_tables two_file_session
           (visited_step initial_state
              (Reload (Some [lt01_file; hr21_file])) visited_init)).
Defined.

(** ** Upload again *)

Lemma upload_loop_outcome (uploaded_files : list File)
    (ds1 ds2 : gmap string Dataset) :
  (upload_loop uploaded_files ds1).2 = (upload_loop uploaded_files ds2).2.
Proof.
  revert ds1 ds2. induction uploaded_files as [|f rest IH];
    intros ds1 ds2; simpl; [done|].
  destruct (read_csv f) as [df|e]; [apply IH|done].
Qed.

Lemma upload_loop_twice (uploaded_files : list File)
    (ds : gmap string Dataset) :
  (upload_loop uploaded_files (upload_loop uploaded_files ds).1).1
  = (upload_loop uploaded_files ds).1.
Proof.
  apply map_eq. intros k. rewrite !upload_loop_lookup.
  by destruct (last_upload_for k uploaded_files).
Qed.

(** X8. Uploading is idempotent: the script runs the upload loop again on
    every rerun while the files stay in the uploader, and running it a
    second time on the same files leaves the session exactly as the first
    run did, with the same outcome. *)
Theorem upload_again_changes_nothing (uploaded_files : list File)
    (s : SessionState) :
  upload uploaded_files (upload uploaded_files s).1
  = upload uploaded_files s.
Proof.
  unfold upload. destruct uploaded_files as [|f rest]; [done|].
  cbn [truthy_list].
  pose proof (upload_loop_twice (f :: rest) (datasets s)) as Htwice.
  destruct (upload_loop (f :: rest) (datasets s)) as [ds r] eqn:H1.
  cbn [fst] in Htwice.
  pose proof (upload_loop_outcome (f :: rest) ds (datasets s)) as Hout.
  rewrite H1 in Hout. cbn [snd] in Hout.
  destruct r as [[]|e]; cbn [fst datasets];
    destruct (upload_loop (f :: rest) ds) as [ds' r'];
    cbn [fst snd] in Htwice, Hout; subst ds' r'; reflexivity.
Qed.

(** ** Overview totals under an update *)

Lemma dict_values_insert (m : gmap string Dataset) k d :
  dict_values (<[k:=d]> m) ≡ₚ d :: dict_values (delete k m).
Proof.
  unfold dict_values. rewrite <- insert_delete_eq.
  rewrite map_to_list_insert by apply lookup_delete_eq. done.
Qed.

Lemma dict_values_delete (m : gmap string Dataset) k d :
  m !! k = Some d → dict_values m ≡ₚ d :: dict_values (delete k m).
Proof.
  intros Hk. rewrite <- (insert_id m k d Hk) at 1. apply dict_values_insert.
Qed.

(** X9. Storing an entry under a key changes the overview totals by
    exactly that entry: a new key adds one product and its rows and
    columns; an existing key keeps the product count and replaces the old
    entry's rows and columns by the new ones. *)
Theorem overview_totals_after_store (m : gmap string Dataset)
    (k : string) (d : Dataset) :
  let before := overview_metrics m in
  let after := overview_metrics (<[k:=d]> m) in
  total_products after
    = (if m !! k is Some _ then total_products before
       else S (total_products before))
  ∧ total_rows after + field_of rows m k = rows d + total_rows before
  ∧ total_columns after + field_of columns m k
    = columns d + total_columns before.
Proof.
  intros before after. subst before after. cbn [overview_metrics
    total_products total_rows total_columns]. unfold field_of.
  rewrite !(dict_values_insert m k d). simpl.
  destruct (m !! k) as [old|] eqn:Hk; simpl.
  - rewrite !(dict_values_delete m k old Hk). simpl.
    split_and!; [by apply map_size_insert_Some|lia..].
  - rewrite (delete_id m k Hk).
    split_and!; [by apply map_size_insert_None|..];
      change (list_fmap Dataset nat) with (@fmap list _ Dataset nat); lia.
Qed.

(** ** Domain rows against the overview totals *)

Lemma loaded_products_app (l1 l2 : list string) (m : gmap string Dataset) :
  loaded_products (l1 ++ l2) m
  = loaded_products l1 m ++ loaded_products l2 m.
Proof. apply filter_app. Qed.

Lemma field_of_loaded_delete (field : Dataset → nat)
    (l : list string) (m : gmap string Dataset) (p : string) :
  p ∉ l →
  field_of field (delete p m) <$> loaded_products l (delete p m)
  = field_of field m <$> loaded_products l m.
Proof.
  intros Hp. unfold loaded_products, field_of.
  induction l as [|q l IH]; [done|].
  apply not_elem_of_cons in Hp as [Hpq Hp].
  rewrite !filter_cons, lookup_delete_ne by done.
  case_decide; rewrite ?fmap_cons, ?lookup_delete_ne by done;
    rewrite (IH Hp); done.
Qed.

Lemma loaded_products_cons (p : string) (l : list string)
    (m : gmap string Dataset) :
  loaded_products (p :: l) m
  = if m !! p is Some _ then p :: loaded_products l m
    else loaded_products l m.
Proof.
  unfold loaded_products. rewrite filter_cons.
  destruct (m !! p); [by rewrite decide_True|].
  by rewrite decide_False by (by intros [? ?]).
Qed.

Lemma loaded_sum_bounded (field : Dataset → nat) (l : list string)
    (m : gmap string Dataset) :
  NoDup l →
  sum_list (field_of field m <$> loaded_products l m)
    ≤ sum_list (field <$> dict_values m)
  ∧ ((∀ k, is_Some (m !! k) → k ∈ l) →
     sum_list (field_of field m <$> loaded_products l m)
     = sum_list (field <$> dict_values m)).
Proof.
  intros Hnd. revert m. induction Hnd as [|p l Hp Hnd IH]; intros m.
  - split; [simpl; lia|]. intros Hdom.
    assert (m = ∅) as ->.
    { apply map_empty. intros k. destruct (m !! k) eqn:Hk; [|done].
      exfalso. eapply elem_of_nil, Hdom. by rewrite Hk. }
    done.
  - destruct (m !! p) as [d|] eqn:Hmp.
    + destruct (IH (delete p m)) as [Hle Heq].
      rewrite (field_of_loaded_delete field l m p Hp) in Hle, Heq.
      rewrite loaded_products_cons, Hmp, fmap_cons.
      rewrite (dict_values_delete m p d Hmp).
      replace (field_of field m p) with (field d)
        by (unfold field_of; by rewrite Hmp).
      simpl. change (list_fmap Dataset nat) with (@fmap list _ Dataset nat).
      change (list_fmap string nat) with (@fmap list _ string nat).
      split; [lia|]. intros Hdom. rewrite Heq; [done|].
      intros k [x Hk]. apply lookup_delete_Some in Hk as [Hne Hk].
      assert (k ∈ p :: l) as Hin by (apply Hdom; by rewrite Hk).
      apply elem_of_cons in Hin as [->|Hin]; done.
    + destruct (IH m) as [Hle Heq].
      rewrite loaded_products_cons, Hmp. split; [done|].
      intros Hdom. apply Heq. intros k Hk.
      assert (k ∈ p :: l) as Hin by (by apply Hdom).
      apply elem_of_cons in Hin as [->|Hin]; [|done].
      rewrite Hmp in Hk. by destruct Hk.
Qed.

Lemma summaries_total (field : Dataset → nat) (get : DomainRow → nat)
    (m : gmap string Dataset) (cats : list (string * list string)) :
  (∀ domain products,
     get (domain_summary domain products m)
     = sum_list (field_of field m <$> loaded_products products m)) →
  sum_list (get <$> map (λ '(domain, products),
                           domain_summary domain products m) cats)
  = sum_list (field_of field m <$> loaded_products (concat cats.*2) m).
Proof.
  intros Hget. induction cats as [|[domain products] cats IH]; [done|].
  change (sum_list (get <$> domain_summary domain products m
                    :: map (λ '(domain, products),
                              domain_summary domain products m) cats)
          = sum_list (field_of field m
                      <$> loaded_products (products ++ concat cats.*2) m)).
  rewrite loaded_products_app, fmap_app, sum_list_with_app, fmap_cons.
  rewrite <- IH, Hget. done.
Qed.

Lemma catalog_ids_NoDup : NoDup catalog_ids.
Proof. by apply (bool_decide_unpack (NoDup catalog_ids)). Qed.

Lemma length_as_sum {A} (l : list A) : length l = sum_list ((λ _, 1) <$> l).
Proof. induction l; simpl; [done|by f_equal]. Qed.

(** X10. A product is counted in at most one domain: over the seven rows
    of the domain table, the records add up to at most the overview's
    total records and the loaded products to at most its total products,
    whatever the registry holds; they add up to exactly the totals when
    every registry key is catalogued. *)
Theorem domain_rows_within_totals (m : gmap string Dataset) :
  sum_list (Records <$> domain_data m) ≤ total_rows (overview_metrics m)
  ∧ sum_list (Products <$> domain_data m)
    ≤ total_products (overview_metrics m)
  ∧ ((∀ k, is_Some (m !! k) → k ∈ catalog_ids) →
     sum_list (Records <$> domain_data m) = total_rows (overview_metrics m)
     ∧ sum_list (Products <$> domain_data m)
       = total_products (overview_metrics m)).
Proof.
  unfold domain_data.
  rewrite (summaries_total rows Records m PRODUCT_CATEGORIES) by done.
  rewrite (summaries_total (λ _, 1) Products m PRODUCT_CATEGORIES).
  2:{ intros domain products. cbn [domain_summary Products].
      rewrite length_as_sum.
      f_equal. apply list_fmap_ext. intros i p Hp.
      apply list_elem_of_lookup_2, list_elem_of_filter in Hp as [[d Hd] _].
      unfold field_of. simpl. by rewrite Hd. }
  fold catalog_ids.
  destruct (loaded_sum_bounded rows catalog_ids m catalog_ids_NoDup)
    as [Hr Hreq].
  destruct (loaded_sum_bounded (λ _, 1) catalog_ids m catalog_ids_NoDup)
    as [Hp Hpeq].
  assert (total_products (overview_metrics m)
          = sum_list ((λ _ : Dataset, 1) <$> dict_values m)) as Hsize.
  { simpl. rewrite <- length_as_sum. unfold dict_values.
    by rewrite length_fmap, length_map_to_list. }
  rewrite Hsize. cbn [overview_metrics total_rows].
  split_and!; [done|done|]. intros Hdom. by rewrite Hreq, Hpeq.
Qed.

(** ** Domain views *)

Lemma available_lookup (products : list string) (m : gmap string Dataset)
    (k : string) :
  is_Some (available products m !! k) ↔ k ∈ loaded_products products m.
Proof.
  unfold available, loaded_products. rewrite list_elem_of_filter.
  split.
  - intros [d Hd]. apply map_lookup_filter_Some in Hd as [Hk Hin].
    split; [by rewrite Hk|done].
  - intros [[d Hd] Hin]. exists d. by apply map_lookup_filter_Some.
Qed.

Lemma available_size (products : list string) (m : gmap string Dataset) :
  NoDup products →
  size (available products m) = length (loaded_products products m).
Proof.
  intros Hnd. rewrite <- size_dom.
  rewrite <- (size_list_to_set (C:=gset string))
    by (by apply NoDup_filter).
  f_equal. apply set_eq. intros k.
  by rewrite elem_of_dom, elem_of_list_to_set, available_lookup.
Qed.

Lemma catalog_category (domain : string) (products : list string) :
  (domain, products) ∈ PRODUCT_CATEGORIES →
  category domain = Ok products ∧ NoDup products.
Proof.
  unfold PRODUCT_CATEGORIES. intros Hin.
  repeat (apply elem_of_cons in Hin as [[= -> ->]|Hin];
          [split; [reflexivity|
                   by apply (bool_decide_unpack (NoDup _))]|]).
  by apply elem_of_nil in Hin.
Qed.

(** X11. A domain view and the overview agree: the view of a catalogued
    domain goes past its "no data available" return exactly when the
    overview row of that domain reports at least one loaded product, and
    the datasets the view works on are the loaded products the row
    counts. *)
Theorem view_shown_iff_products_loaded (domain : string)
    (products : list string) (m : gmap string Dataset) :
  (domain, products) ∈ PRODUCT_CATEGORIES →
  let row := domain_summary domain products m in
  view_shown domain m = Ok (bool_decide (0 < Products row))
  ∧ size (available products m) = Products row
  ∧ (∀ k, is_Some (available products m !! k)
          ↔ k ∈ products ∧ is_Some (m !! k)).
Proof.
  intros Hin row. subst row. cbn [domain_summary Products].
  destruct (catalog_category domain products Hin) as [Hcat Hnd].
  pose proof (available_size products m Hnd) as Hsize.
  split_and!; [|done|].
  - unfold view_shown. rewrite Hcat. simpl. f_equal.
    unfold truthy_dict. rewrite <- Hsize.
    apply bool_decide_ext. rewrite <- map_size_non_empty_iff. lia.
  - intros k. rewrite available_lookup. unfold loaded_products.
    rewrite list_elem_of_filter. tauto.
Qed.

Lemma view_shown_iff_products_loaded_witness :
  ("Human Resource Management",
   ["CHEDS-HR-21"; "CHEDS-HR-22"; "CHEDS-HR-23"; "CHEDS-HR-24"])
    ∈ PRODUCT_CATEGORIES
  ∧ view_shown "Human Resource Management" (datasets two_file_session)
    = Ok true.
Proof.
  assert (("Human Resource Management",
           ["CHEDS-HR-21"; "CHEDS-HR-22"; "CHEDS-HR-23"; "CHEDS-HR-24"])
            ∈ PRODUCT_CATEGORIES) as Hin
    by (apply (bool_decide_unpack _); vm_compute; exact I).
  split; [exact Hin|].
  destruct (view_shown_iff_products_loaded _ _ (datasets two_file_session) Hin)
    as [-> _].
  reflexivity.
Defined.

(** * Further properties of the data explorer *)

(** ** File selector *)

Lemma first_token_before_sep (sep : ascii) (a b : string) :
  contains sep a = false →
  first_token (split sep (a ++ String sep b)%string) = a.
Proof.
  induction a as [|c a IH].
  - intros _. simpl. by rewrite decide_True.
  - change (String c a +:+ String sep b) with (String c (a +:+ String sep b)).
    cbn [contains split]. case_decide as Hc; [done|].
    intros Ha. specialize (IH Ha).
    destruct (split_cons_shape sep (a +:+ String sep b)) as (tok & toks & Hs).
    rewrite Hs in *. unfold first_token in *. simpl in *. by f_equal.
Qed.

(** X12. Selecting a file in the explorer finds its dataset: for a
    registry key without a colon, the option text built from the key and
    the file name splits back to the key, and the lookup returns the
    entry. *)
Theorem selected_file_finds_dataset (m : gmap string Dataset)
    (product_id : string) (info : Dataset) :
  m !! product_id = Some info → contains colon product_id = false →
  first_token (split colon (file_option product_id info)) = product_id
  ∧ selected_dataset (file_option product_id info) m = Ok info.
Proof.
  intros Hm Hc.
  assert (first_token (split colon (file_option product_id info))
          = product_id) as Hid.
  { unfold file_option.
    change (": " +:+ filename info)
      with (String colon (" " +:+ filename info)).
    by apply first_token_before_sep. }
  split; [done|]. unfold selected_dataset. by rewrite Hid, Hm.
Qed.

Lemma selected_file_finds_dataset_witness :
  selected_dataset "CHEDS-LT-01: CHEDS-LT-01_x.csv"
                   (datasets two_file_session)
  = Ok (mk_dataset (table ["a"; "b"; "c"] 10) "CHEDS-LT-01_x.csv").
Proof.
  apply (selected_file_finds_dataset (datasets two_file_session)
           "CHEDS-LT-01"
           (mk_dataset (table ["a"; "b"; "c"] 10) "CHEDS-LT-01_x.csv"));
    reflexivity.
Defined.

(** ** Filter slots *)

Lemma df_col_cells (df : DataFrame) (col : string) (i : nat) :
  index_of col (df_columns df) = Some i →
  df_col df col = Ok (map (λ r, cell_at r i) (df_rows df)).
Proof. intros Hi. unfold df_col. by rewrite Hi. Qed.

Lemma index_of_None (c : string) (cols : list string) :
  c ∉ cols → index_of c cols = None.
Proof.
  intros Hc. destruct (index_of c cols) as [i|] eqn:Hi; [|done].
  destruct Hc. by eapply index_of_Some_elem.
Qed.

Lemma filter_ext_in {A} (P Q : A → Prop) `{∀ x, Decision (P x)}
    `{∀ x, Decision (Q x)} (l : list A) :
  (∀ x, x ∈ l → P x ↔ Q x) → filter P l = filter Q l.
Proof.
  induction l as [|x l IH]; intros Hext; [done|].
  rewrite !filter_cons.
  assert (filter P l = filter Q l) as ->
    by (apply IH; intros y Hy; apply Hext; by right).
  destruct (decide (P x)) as [HP|HP], (decide (Q x)) as [HQ|HQ];
    try done; exfalso; apply (Hext x) in HP || apply (Hext x) in HQ;
    done || by left.
Qed.

Lemma filter_swap {A} (P Q : A → Prop) `{∀ x, Decision (P x)}
    `{∀ x, Decision (Q x)} (l : list A) :
  filter P (filter Q l) = filter Q (filter P l).
Proof.
  induction l as [|x l IH]; [done|].
  rewrite !filter_cons.
  destruct (decide (P x)); destruct (decide (Q x));
    rewrite ?filter_cons, ?decide_True, ?decide_False by done;
    by rewrite IH.
Qed.

(** The distinct non-missing values of column [i]. *)
Lemma unique_values_at (df : DataFrame) (c : string) (i : nat) :
  index_of c (df_columns df) = Some i →
  ∃ unique,
    unique_values df c = Ok unique
    ∧ NoDup unique
    ∧ ∀ v, v ∈ unique ↔ v ≠ CNaN ∧ ∃ r, r ∈ df_rows df ∧ cell_at r i = v.
Proof.
  intros Hi. unfold unique_values. rewrite (df_col_cells df c i Hi).
  eexists. split; [reflexivity|]. split; [apply counts_first_seen_NoDup|].
  intros v. rewrite counts_first_seen_keys.
  change (map (λ r, cell_at r i) (df_rows df))
    with ((λ r, cell_at r i) <$> df_rows df).
  rewrite list_elem_of_fmap. naive_solver.
Qed.

Lemma existsb_elem_of {A} (f : A → bool) (l : list A) :
  existsb f l = true ↔ ∃ x, x ∈ l ∧ f x = true.
Proof.
  rewrite existsb_exists. split; intros (x & Hx & Hf); exists x;
    (split; [by apply list_elem_of_In|done]).
Qed.

Lemma existsb_subseteq {A} (f : A → bool) (l1 l2 : list A) :
  (∀ x, x ∈ l1 → x ∈ l2) → existsb f l2 = false → existsb f l1 = false.
Proof.
  intros Hsub H2. destruct (existsb f l1) eqn:H1; [|done].
  apply existsb_elem_of in H1 as (x & Hx & Hf).
  assert (existsb f l2 = true) as H2'
    by (apply existsb_elem_of; exists x; auto).
  congruence.
Qed.

Lemma mixed_subseteq (l1 l2 : list Cell) :
  (∀ x, x ∈ l1 → x ∈ l2) → mixed l2 = false → mixed l1 = false.
Proof.
  unfold mixed. intros Hsub [H2|H2]%andb_false_iff.
  - by rewrite (existsb_subseteq _ _ _ Hsub H2).
  - rewrite (existsb_subseteq _ _ _ Hsub H2). apply andb_false_r.
Qed.

Lemma insert_sorted_perm (x : Cell) (l : list Cell) :
  insert_sorted x l ≡ₚ x :: l.
Proof.
  induction l as [|y l IH]; [done|]. simpl.
  destruct (key_ltb y x); [|done]. rewrite IH. apply Permutation_swap.
Qed.

Lemma py_sorted_perm (values sorted : list Cell) :
  py_sorted values = Ok sorted → sorted ≡ₚ values.
Proof.
  unfold py_sorted. destruct (mixed values); [done|]. intros [= <-].
  induction values as [|x values IH]; [done|]. simpl.
  by rewrite insert_sorted_perm, IH.
Qed.

(** When a slot shows a dropdown and what it offers. *)
Lemma dropdown_options_Some (df : DataFrame) (c : string)
    (options : list Cell) :
  dropdown_options df c = Ok (Some options) ↔
  ∃ i unique,
    index_of c (df_columns df) = Some i
    ∧ unique_values df c = Ok unique
    ∧ length unique ≤ 50 ∧ mixed unique = false
    ∧ py_sorted unique = Ok options.
Proof.
  unfold dropdown_options, unique_values, df_col.
  destruct (index_of c (df_columns df)) as [i|]; cbn [mbind result_bind].
  - set (unique := (counts_first_seen _).*1). split.
    + case_bool_decide as Hlen; [|done].
      destruct (py_sorted unique) as [sorted|e] eqn:Hsort; [|done].
      intros [= <-]. exists i, unique. split_and!; try done.
      unfold py_sorted in Hsort. by destruct (mixed unique).
    + intros (i' & unique' & [= <-] & [= <-] & Hlen & _ & Hsort).
      rewrite bool_decide_eq_true_2 by done. by rewrite Hsort.
  - split; [done|]. by intros (i & unique & [=] & _).
Qed.

(** What a slot does when it shows a dropdown. *)
Lemma filter_slot_dropdown_eq (str_contains : text_search) (df : DataFrame)
    (w : Slot) (i : nat) (options : list Cell) :
  filter_column w ≠ "None" →
  index_of (filter_column w) (df_columns df) = Some i →
  dropdown_options df (filter_column w) = Ok (Some options) →
  filter_slot str_contains df w
  = Ok (if truthy_list (filter_values w)
        then {| df_columns := df_columns df;
                df_rows := filter (λ r, cell_at r i ∈ filter_values w)
                                  (df_rows df) |}
        else df).
Proof.
  intros Hnone Hi (i' & unique & Hi' & Huniq & Hlen & _ & Hsort)%dropdown_options_Some.
  unfold filter_slot. rewrite decide_False by done.
  rewrite Huniq. cbn [mbind result_bind].
  rewrite bool_decide_eq_true_2 by done. rewrite Hsort.
  cbn [mbind result_bind]. destruct (truthy_list _); [|done].
  unfold isin_filter. by rewrite Hi.
Qed.

(** Fewer rows never turn a dropdown into a text search. *)
Lemma dropdown_options_fewer_rows (df df' : DataFrame) (c : string)
    (options : list Cell) :
  df_columns df' = df_columns df →
  (∀ r, r ∈ df_rows df' → r ∈ df_rows df) →
  dropdown_options df c = Ok (Some options) →
  ∃ options', dropdown_options df' c = Ok (Some options').
Proof.
  intros Hcols Hrows (i & unique & Hi & Huniq & Hlen & Hmix & _)%dropdown_options_Some.
  destruct (unique_values_at df c i Hi) as (u & Hu & Hnd & Hin).
  assert (u = unique) as -> by congruence.
  destruct (unique_values_at df' c i) as (u' & Hu' & Hnd' & Hin');
    [by rewrite Hcols|].
  assert (∀ v, v ∈ u' → v ∈ unique) as Hsub.
  { intros v. rewrite Hin, Hin'. naive_solver. }
  assert (length u' ≤ 50) as Hlen'.
  { etrans; [|exact Hlen]. apply submseteq_length.
    by apply NoDup_submseteq. }
  pose proof (mixed_subseteq _ _ Hsub Hmix) as Hmix'.
  exists (foldr insert_sorted [] u'). apply dropdown_options_Some.
  exists i, u'. split_and!; [by rewrite Hcols|done|done|done|].
  unfold py_sorted. by rewrite Hmix'.
Qed.

Lemma mask_rows_sublist (df : DataFrame) (mask : list bool) :
  df_rows (mask_rows df mask) `sublist_of` df_rows df.
Proof.
  unfold mask_rows. cbn [df_rows]. generalize (df_rows df) as rows.
  intros rows. revert mask.
  induction rows as [|r rows IH]; intros [|b mask]; simpl;
    try apply sublist_nil_l.
  rewrite filter_cons. cbn [snd]. destruct (decide (b = true)); simpl.
  - by apply sublist_skip.
  - by apply sublist_cons.
Qed.

(** Whatever its branch, a slot keeps the header and takes rows away
    without reordering them. *)
Lemma filter_slot_narrows (str_contains : text_search) (df out : DataFrame)
    (w : Slot) :
  filter_slot str_contains df w = Ok out →
  df_columns out = df_columns df ∧ df_rows out `sublist_of` df_rows df.
Proof.
  unfold filter_slot. case_decide; [by intros [= <-]|].
  destruct (unique_values df (filter_column w)) as [unique|e]; [|done].
  cbn [mbind result_bind]. case_bool_decide.
  - destruct (py_sorted unique); [|done]. cbn [mbind result_bind].
    destruct (truthy_list _); [|by intros [= <-]].
    unfold isin_filter. destruct (index_of _ _); [|done].
    intros [= <-]. split; [done|]. apply sublist_filter.
  - case_decide; [by intros [= <-]|].
    destruct (df_col df (filter_column w)); [|done].
    cbn [mbind result_bind].
    destruct (str_contains _ _) as [mask|]; [|done].
    intros [= <-]. split; [done|]. apply mask_rows_sublist.
Qed.

(** X13. A filter slot that shows a dropdown (an existing column with at
    most 50 distinct values) never raises and keeps the header; while no
    value is picked it leaves the table as it is, and once values are
    picked it keeps, in their order, exactly the rows whose cell in the
    column is one of them. *)
Theorem filter_slot_dropdown (str_contains : text_search) (df : DataFrame)
    (w : Slot) (i : nat) (options : list Cell) :
  filter_column w ≠ "None" →
  index_of (filter_column w) (df_columns df) = Some i →
  dropdown_options df (filter_column w) = Ok (Some options) →
  ∃ out,
    filter_slot str_contains df w = Ok out
    ∧ df_columns out = df_columns df
    ∧ df_rows out `sublist_of` df_rows df
    ∧ (filter_values w = [] → out = df)
    ∧ (filter_values w ≠ [] →
       ∀ r, r ∈ df_rows out ↔ r ∈ df_rows df ∧ cell_at r i ∈ filter_values w).
Proof.
  intros Hnone Hi Hopt.
  pose proof (filter_slot_dropdown_eq str_contains df w i options
                Hnone Hi Hopt) as Heq.
  eexists. split; [exact Heq|].
  destruct (filter_slot_narrows _ _ _ _ Heq) as [Hcols Hsub].
  split_and!; [done|done| |].
  - by intros ->.
  - intros Hvals r. destruct (filter_values w); [done|].
    cbn [truthy_list df_rows]. rewrite list_elem_of_filter. tauto.
Qed.

Lemma filter_slot_dropdown_witness :
  ∃ out,
    filter_slot match_nothing applicants_table
      {| filter_column := "App_Institution_Name";
         filter_values := [CStr "UAEU"]; filter_text := "" |} = Ok out
    ∧ df_rows out = [ [CStr "UAEU"; CStr "120"]; [CStr "UAEU"; CStr "unknown"] ].
Proof.
  destruct (filter_slot_dropdown match_nothing applicants_table
              {| filter_column := "App_Institution_Name";
                 filter_values := [CStr "UAEU"]; filter_text := "" |}
              0 [CStr "AUS"; CStr "UAEU"])
    as (out & Hout & _); [done|reflexivity|reflexivity|].
  exists out. split; [exact Hout|].
  vm_compute in Hout. by injection Hout as <-.
Defined.

(** X14. Two dropdown slots commute: when both columns show a dropdown on
    the table, filtering by one and then by the other gives the same table
    in either order of the slots. *)
Theorem dropdown_slots_commute (str_contains : text_search) (df : DataFrame)
    (w1 w2 : Slot) (options1 options2 : list Cell) :
  dropdown_options df (filter_column w1) = Ok (Some options1) →
  dropdown_options df (filter_column w2) = Ok (Some options2) →
  filter_slots str_contains df [w1; w2] = filter_slots str_contains df [w2; w1]
  ∧ ∃ out, filter_slots str_contains df [w1; w2] = Ok out.
Proof.
  intros H1 H2. cbn [filter_slots].
  assert (∀ (w w' : Slot) o o',
            dropdown_options df (filter_column w) = Ok (Some o) →
            dropdown_options df (filter_column w') = Ok (Some o') →
            filter_column w = "None" →
            (df1 ← filter_slot str_contains df w;
             df2 ← filter_slot str_contains df1 w'; Ok df2)
            = filter_slot str_contains df w'
            ∧ (df1 ← filter_slot str_contains df w';
               df2 ← filter_slot str_contains df1 w; Ok df2)
              = filter_slot str_contains df w') as Hnone.
  { intros w w' o o' Ho Ho' Hw.
    assert (∀ d, filter_slot str_contains d w = Ok d) as Hid
      by (intros d; unfold filter_slot; by rewrite decide_True).
    rewrite Hid. cbn [mbind result_bind]. split.
    - by destruct (filter_slot str_contains df w').
    - destruct (filter_slot str_contains df w'); [|done].
      cbn [mbind result_bind]. by rewrite Hid. }
  destruct (decide (filter_column w1 = "None")) as [Hn1|Hn1].
  { destruct (Hnone w1 w2 _ _ H1 H2 Hn1) as [-> ->]. split; [done|].
    destruct (decide (filter_column w2 = "None")) as [Hn2|Hn2].
    - exists df. unfold filter_slot. by rewrite decide_True.
    - pose proof H2 as (j & _ & Hj & _)%dropdown_options_Some.
      eexists. by eapply filter_slot_dropdown_eq. }
  destruct (decide (filter_column w2 = "None")) as [Hn2|Hn2].
  { destruct (Hnone w2 w1 _ _ H2 H1 Hn2) as [-> ->]. split; [done|].
    pose proof H1 as (i & _ & Hi & _)%dropdown_options_Some.
    eexists. by eapply filter_slot_dropdown_eq. }
  pose proof H1 as (i & _ & Hi & _)%dropdown_options_Some.
  pose proof H2 as (j & _ & Hj & _)%dropdown_options_Some.
  rewrite (filter_slot_dropdown_eq _ _ _ _ _ Hn1 Hi H1).
  rewrite (filter_slot_dropdown_eq _ _ _ _ _ Hn2 Hj H2).
  cbn [mbind result_bind].
  set (df1 := if truthy_list (filter_values w1) then _ else df).
  set (df2 := if truthy_list (filter_values w2) then _ else df).
  assert (df_columns df1 = df_columns df) as Hc1
    by (subst df1; by destruct (truthy_list (filter_values w1))).
  assert (df_columns df2 = df_columns df) as Hc2
    by (subst df2; by destruct (truthy_list (filter_values w2))).
  assert (∀ r, r ∈ df_rows df1 → r ∈ df_rows df) as Hr1.
  { subst df1. destruct (truthy_list (filter_values w1)); [|done].
    cbn [df_rows].
    intros r. rewrite list_elem_of_filter. tauto. }
  assert (∀ r, r ∈ df_rows df2 → r ∈ df_rows df) as Hr2.
  { subst df2. destruct (truthy_list (filter_values w2)); [|done].
    cbn [df_rows].
    intros r. rewrite list_elem_of_filter. tauto. }
  destruct (dropdown_options_fewer_rows df df1 _ _ Hc1 Hr1 H2) as [o2' H2'].
  destruct (dropdown_options_fewer_rows df df2 _ _ Hc2 Hr2 H1) as [o1' H1'].
  rewrite (filter_slot_dropdown_eq _ df1 w2 j o2' Hn2) by (by rewrite ?Hc1).
  rewrite (filter_slot_dropdown_eq _ df2 w1 i o1' Hn1) by (by rewrite ?Hc2).
  cbn [mbind result_bind]. split; [|by eexists].
  f_equal. subst df1 df2.
  destruct (truthy_list (filter_values w1)), (truthy_list (filter_values w2));
    cbn [df_columns df_rows]; try done.
  f_equal. apply filter_swap.
Qed.

Lemma dropdown_slots_commute_witness :
  filter_slots match_nothing applicants_table
    [ {| filter_column := "App_Institution_Name";
         filter_values := [CStr "UAEU"]; filter_text := "" |};
      {| filter_column := "App_Applicants";
         filter_values := [CStr "120"; CStr "75"]; filter_text := "" |} ]
  = Ok {| df_columns := ["App_Institution_Name"; "App_Applicants"];
          df_rows := [ [CStr "UAEU"; CStr "120"] ] |}
  ∧ filter_slots match_nothing applicants_table
      [ {| filter_column := "App_Applicants";
           filter_values := [CStr "120"; CStr "75"]; filter_text := "" |};
        {| filter_column := "App_Institution_Name";
           filter_values := [CStr "UAEU"]; filter_text := "" |} ]
    = Ok {| df_columns := ["App_Institution_Name"; "App_Applicants"];
            df_rows := [ [CStr "UAEU"; CStr "120"] ] |}.
Proof.
  destruct (dropdown_slots_commute match_nothing applicants_table
              {| filter_column := "App_Institution_Name";
                 filter_values := [CStr "UAEU"]; filter_text := "" |}
              {| filter_column := "App_Applicants";
                 filter_values := [CStr "120"; CStr "75"];
                 filter_text := "" |}
              [CStr "AUS"; CStr "UAEU"]
              [CStr "120"; CStr "75"; CStr "unknown"])
    as [Heq _]; [reflexivity|reflexivity|].
  split; [reflexivity|]. rewrite <- Heq. reflexivity.
Defined.

(** X15. A dropdown offers the non-missing values of its column, each
    once.  Picking all of them is not the same as picking none: when the
    column has a value at all, it keeps exactly the rows whose cell is not
    missing; when every cell is missing nothing is offered, nothing can be
    picked, and the table stays as it is. *)
Theorem choosing_all_offered_values (str_contains : text_search)
    (df : DataFrame) (c text : string) (i : nat) (options : list Cell) :
  c ≠ "None" →
  index_of c (df_columns df) = Some i →
  dropdown_options df c = Ok (Some options) →
  NoDup options
  ∧ (∀ v, v ∈ options ↔ v ≠ CNaN ∧ ∃ r, r ∈ df_rows df ∧ cell_at r i = v)
  ∧ filter_slot str_contains df
      {| filter_column := c; filter_values := options; filter_text := text |}
    = Ok (match options with
          | [] => df
          | _ :: _ =>
              {| df_columns := df_columns df;
                 df_rows := filter (λ r, cell_at r i ≠ CNaN) (df_rows df) |}
          end).
Proof.
  intros Hnone Hi Hopt.
  pose proof Hopt as (i' & unique & _ & Huniq & _ & _ & Hsort)%dropdown_options_Some.
  destruct (unique_values_at df c i Hi) as (u & Hu & Hnd & Hin).
  assert (u = unique) as -> by congruence.
  apply py_sorted_perm in Hsort.
  assert (∀ v, v ∈ options
               ↔ v ≠ CNaN ∧ ∃ r, r ∈ df_rows df ∧ cell_at r i = v) as Hoff.
  { intros v. by rewrite Hsort. }
  split_and!; [by rewrite Hsort|done|].
  rewrite (filter_slot_dropdown_eq _ _ _ i options) by done.
  cbn [filter_values]. destruct options as [|o options]; [done|].
  cbn [truthy_list]. do 2 f_equal.
  apply filter_ext_in. intros r Hr. rewrite Hoff. naive_solver.
Qed.

Lemma choosing_all_offered_values_witness :
  filter_slot match_nothing applicants_counts_table
    {| filter_column := "App_Institution_Name";
       filter_values := [CStr "AUS"; CStr "UAEU"]; filter_text := "" |}
  = Ok {| df_columns := ["App_Institution_Name"; "App_Applicants"];
          df_rows := [ [CStr "UAEU"; CInt 120]; [CStr "AUS"; CInt 75];
                       [CStr "UAEU"; CInt 30] ] |}.
Proof.
  destruct (choosing_all_offered_values match_nothing
              applicants_counts_table "App_Institution_Name" "" 0
              [CStr "AUS"; CStr "UAEU"])
    as (_ & _ & Heq); [done|reflexivity|reflexivity|].
  rewrite Heq. reflexivity.
Defined.

(** X24. Whatever is chosen in the slots, columns, values or search
    texts, and whatever the text search matches, the filtered table has
    the header of the table and its rows are rows of the table in their
    original order. *)
Theorem filter_slots_narrow (str_contains : text_search)
    (slots : list Slot) (df out : DataFrame) :
  filter_slots str_contains df slots = Ok out →
  df_columns out = df_columns df
  ∧ df_rows out `sublist_of` df_rows df
  ∧ df_len out ≤ df_len df.
Proof.
  revert df. induction slots as [|w slots IH]; intros df; cbn [filter_slots].
  - intros [= <-]. split_and!; done.
  - destruct (filter_slot str_contains df w) as [df'|e] eqn:Hslot; [|done].
    cbn [mbind result_bind]. intros Hrest.
    destruct (filter_slot_narrows _ _ _ _ Hslot) as [Hc Hs].
    destruct (IH _ Hrest) as (Hc' & Hs' & _).
    assert (df_rows out `sublist_of` df_rows df) as Hsub by (by etrans).
    split_and!; [congruence|done|].
    unfold df_len. by apply sublist_length.
Qed.

Lemma filter_slots_narrow_witness :
  df_len {| df_columns := ["App_Institution_Name"; "App_Applicants"];
            df_rows := [ [CStr "UAEU"; CStr "120"] ] |}
  ≤ df_len applicants_table.
Proof.
  apply (filter_slots_narrow match_nothing
           [ {| filter_column := "App_Institution_Name";
                filter_values := [CStr "UAEU"]; filter_text := "" |};
             {| filter_column := "None";
                filter_values := []; filter_text := "" |};
             {| filter_column := "App_Applicants";
                filter_values := [CStr "120"; CStr "75"];
                filter_text := "" |} ]
           applicants_table).
  reflexivity.
Defined.

(** ** Column selection and export *)

Lemma column_positions_ok (cols header : list string) :
  (∀ c, c ∈ cols → c ∈ header) →
  ∃ ps, column_positions cols header = Ok ps ∧ length ps = length cols.
Proof.
  induction cols as [|c cols IH]; intros Hin; [by exists []|].
  simpl.
  destruct (index_of_is_Some c header) as [i ->]; [apply Hin; by left|].
  destruct IH as (ps & -> & Hlen); [intros x Hx; apply Hin; by right|].
  exists (i :: ps). simpl. by rewrite Hlen.
Qed.

(** X16. Choosing the columns to display never changes the rows: the
    view has as many rows as the filtered table (the count in the table
    caption is the number of exported rows), its header is the selection
    in the order chosen, or the whole header when nothing is selected, and
    it cannot raise when the selection is taken from the table's columns.
    The table on screen shows the first [row_limit] rows of what is
    exported. *)
Theorem display_view_keeps_rows (filtered_df : DataFrame)
    (selected_columns : list string) (row_limit : nat) :
  (∀ view, display_view filtered_df selected_columns = Ok view →
     df_len view = df_len filtered_df
     ∧ df_columns view
       = (if selected_columns is [] then df_columns filtered_df
          else selected_columns)
     ∧ df_rows (df_head row_limit view) `prefix_of` df_rows view
     ∧ df_len (df_head row_limit view) = row_limit `min` df_len filtered_df)
  ∧ ((∀ c, c ∈ selected_columns → c ∈ df_columns filtered_df) →
     ∃ view, display_view filtered_df selected_columns = Ok view).
Proof.
  unfold display_view, df_select. split.
  - intros view.
    destruct selected_columns as [|c cols]; cbn [truthy_list].
    + intros [= <-]. split_and!; [done|done|apply prefix_take|].
      apply length_take.
    + destruct (column_positions (c :: cols) (df_columns filtered_df))
        as [ps|e]; simpl; [|done].
      intros [= <-]. unfold df_len. cbn [df_rows df_columns df_head].
      rewrite length_take, length_map.
      split_and!; [done|done|apply prefix_take|done].
  - intros Hin. destruct selected_columns as [|c cols]; cbn [truthy_list];
      [by eexists|].
    destruct (column_positions_ok (c :: cols) _ Hin) as (ps & -> & _).
    by eexists.
Qed.

Lemma index_of_lookup (header : list string) (i : nat) (c : string) :
  NoDup header → header !! i = Some c → index_of c header = Some i.
Proof.
  intros Hnd. revert i. induction Hnd as [|x header Hx Hnd IH];
    intros i; [done|].
  destruct i as [|i]; simpl.
  - intros [= ->]. by rewrite decide_True.
  - intros Hi. rewrite decide_False.
    + by rewrite (IH i Hi).
    + intros ->. apply Hx. by eapply list_elem_of_lookup_2.
Qed.

Lemma column_positions_suffix (header cols : list string) (k : nat) :
  NoDup header → drop k header = cols →
  column_positions cols header = Ok (seq k (length cols)).
Proof.
  intros Hnd. revert k. induction cols as [|c cols IH]; intros k Hk;
    [done|].
  simpl. rewrite (index_of_lookup header k c Hnd).
  - rewrite (IH (S k)); [done|].
    replace (S k) with (k + 1) by lia. by rewrite <- drop_drop, Hk.
  - by rewrite <- (Nat.add_0_r k), <- lookup_drop, Hk.
Qed.

Lemma cells_of_row (r : list Cell) :
  map (cell_at r) (seq 0 (length r)) = r.
Proof.
  apply list_eq. intros i. unfold cell_at.
  change (map (λ i, default CNaN (r !! i))) with
    (fmap (M:=list) (λ i, default CNaN (r !! i))).
  rewrite list_lookup_fmap.
  destruct (r !! i) as [x|] eqn:Hi.
  - rewrite lookup_seq_lt by (by eapply lookup_lt_Some). simpl.
    by rewrite Hi.
  - rewrite lookup_seq_ge by (by apply lookup_ge_None). done.
Qed.

(** X17. Selecting every column, in header order, gives back the table
    unchanged, provided its column names are distinct and its rows are as
    wide as the header (as in a table pandas has parsed). *)
Theorem select_all_columns_is_identity (df : DataFrame) :
  NoDup (df_columns df) → rectangular df →
  df_select df (df_columns df) = Ok df.
Proof.
  intros Hnd Hrect. unfold df_select.
  rewrite (column_positions_suffix (df_columns df) (df_columns df) 0 Hnd)
    by done.
  simpl. destruct df as [cols rws]. simpl in *. do 2 f_equal.
  unfold rectangular in Hrect. simpl in Hrect.
  induction Hrect as [|r rws Hr _ IH]; [done|].
  simpl. rewrite IH. f_equal. rewrite <- Hr. apply cells_of_row.
Qed.

Lemma select_all_columns_is_identity_witness :
  NoDup (df_columns applicants_table)
  ∧ rectangular applicants_table
  ∧ df_select applicants_table (df_columns applicants_table)
    = Ok applicants_table.
Proof.
  assert (NoDup (df_columns applicants_table)) as Hnd
    by (apply (bool_decide_unpack _); vm_compute; exact I).
  assert (rectangular applicants_table) as Hrect
    by (repeat constructor).
  split_and!; [exact Hnd|exact Hrect|].
  exact (select_all_columns_is_identity applicants_table Hnd Hrect).
Defined.

(** ** Data quality *)

Lemma duplicated_length (seen rs : list (list Cell)) :
  length (duplicated seen rs) = length rs.
Proof.
  revert seen. induction rs as [|r rs IH]; intros seen; [done|].
  simpl. by rewrite IH.
Qed.

Lemma duplicated_none (seen rs : list (list Cell)) :
  filter (λ b, b = true) (duplicated seen rs) = []
  ↔ NoDup rs ∧ ∀ r, r ∈ rs → r ∉ seen.
Proof.
  revert seen. induction rs as [|r rs IH]; intros seen.
  - split; [intros _; split; [constructor|by intros ? ?%elem_of_nil]|done].
  - simpl. rewrite filter_cons, NoDup_cons. case_bool_decide as Hr.
    + rewrite decide_True by done. split; [done|].
      intros [_ Hall]. destruct (Hall r); [by left|done].
    + rewrite decide_False by done. rewrite IH. split.
      * intros [Hnd Hall]. split_and!; [|done|].
        -- intros Hin. destruct (Hall r Hin). by left.
        -- intros x [->|Hx]%elem_of_cons; [done|].
           intros Hs. destruct (Hall x Hx). by right.
      * intros [[Hrs Hnd] Hall]. split; [done|].
        intros x Hx [->|Hs]%elem_of_cons; [done|].
        destruct (Hall x); [by right|done].
Qed.

(** X19. The duplicate count is zero, and "No duplicates" is shown,
    exactly when no two rows of the table are equal; it is always less
    than the number of rows of a non-empty table, since the first row of
    each group of equal rows is not counted. *)
Theorem duplicate_rows_report (df : DataFrame) :
  (duplicate_rows df = 0 ↔ NoDup (records df))
  ∧ duplicate_rows df ≤ df_len df
  ∧ (0 < df_len df → duplicate_rows df < df_len df).
Proof.
  unfold duplicate_rows.
  assert (length (records df) = df_len df) as Hlen
    by (unfold records; apply length_map).
  split_and!.
  - rewrite length_zero_iff_nil, duplicated_none. split; [by intros [? _]|].
    intros Hnd. split; [done|]. by intros ? _ ?%elem_of_nil.
  - etrans; [apply length_filter|]. by rewrite duplicated_length, Hlen.
  - rewrite <- Hlen. destruct (records df) as [|r rs]; [simpl; lia|].
    intros _.
    change (duplicated [] (r :: rs))
      with (bool_decide (r ∈ @nil (list Cell)) :: duplicated [r] rs).
    rewrite bool_decide_eq_false_2 by (by intros ?%elem_of_nil).
    rewrite filter_cons, decide_False by done.
    pose proof (length_filter (λ b, b = true) (duplicated [r] rs)) as Hf.
    rewrite duplicated_length in Hf. simpl. lia.
Qed.

(** * Further properties of the domain views *)

(** ** Workforce shares on a table with rows *)

Lemma count_equal_value (df : DataFrame) (c v : string) :
  ∃ n k, count_equal df c v = Ok n ∧ num_val n = Qnat k
         ∧ (has_column df c = true →
            ∃ cells, df_col df c = Ok cells
                     ∧ length cells = df_len df
                     ∧ k = length (filter (λ x, x = CStr v) cells))
         ∧ (has_column df c = false → k = 0).
Proof.
  unfold count_equal. destruct (has_column df c) eqn:Hc.
  - unfold has_column in Hc. apply bool_decide_eq_true in Hc.
    destruct (index_of_is_Some c _ Hc) as [i Hi].
    unfold df_col. rewrite Hi. simpl.
    eexists _, _. split_and!; [done|done| |done].
    intros _. eexists. split_and!; [done| |done]. apply length_map.
  - exists (Py 0), 0. by split_and!.
Qed.

Lemma truediv_by_len (a : pynum) (n : nat) :
  0 < n → truediv a (of_len n) = Ok (Finite (num_val a / Qnat n)).
Proof.
  intros Hn. unfold truediv, of_len.
  assert (Qis_zero (Qnat n) = false) as Hz
    by (rewrite Qis_zero_Qnat; case_bool_decide; [lia|done]).
  destruct a; simpl; by rewrite Hz.
Qed.

Lemma Qnat_sub (a b : nat) : b ≤ a → (Qnat (a - b) == Qnat a - Qnat b)%Q.
Proof.
  intros Hba. unfold Qnat. rewrite Nat2Z.inj_sub by done.
  unfold Qminus, Z.sub. rewrite inject_Z_plus. rewrite inject_Z_opp.
  reflexivity.
Qed.

Lemma num_val_pysub (a b : pynum) :
  num_val (pysub a b) = (num_val a - num_val b)%Q.
Proof. by destruct a, b. Qed.

Lemma Qnat_not_zero (n : nat) : 0 < n → ¬ (Qnat n == 0)%Q.
Proof.
  intros Hn Hz. pose proof (Qnat_pos n Hn) as Hp.
  rewrite Hz in Hp. by apply Qlt_irrefl in Hp.
Qed.

Lemma workforce_share_by_len (a : pynum) (n : nat) :
  0 < n →
  workforce_share a (of_len n) = Ok (Finite (num_val a / Qnat n * 100)).
Proof.
  intros Hn. unfold workforce_share. by rewrite truediv_by_len.
Qed.

(** X20. On a staff table with at least one row the workforce overview
    never raises and its four shares are numbers between 0 and 100.
    Without a gender column the male and female shares are 0; without a
    nationality column the nationals' share is 0 and the expatriates'
    share is 100. *)
Theorem workforce_shares_with_rows (df : DataFrame) :
  0 < df_len df →
  ∃ m f u e,
    workforce_overview df
    = Ok {| male_pct := Finite m; female_pct := Finite f;
            uae_pct := Finite u; expat_pct := Finite e |}
    ∧ (0 <= m)%Q ∧ (m <= 100)%Q ∧ (0 <= f)%Q ∧ (f <= 100)%Q
    ∧ (0 <= u)%Q ∧ (u <= 100)%Q ∧ (0 <= e)%Q ∧ (e <= 100)%Q
    ∧ (has_column df "Emp_Gender" = false → (m == 0)%Q ∧ (f == 0)%Q)
    ∧ (has_column df "Emp_Nationality" = false
       → (u == 0)%Q ∧ (e == 100)%Q).
Proof.
  intros Hn. set (n := df_len df) in *.
  destruct (count_equal_value df "Emp_Gender" "M")
    as (cm & km & Hcm & Hvm & Hm1 & Hm0).
  destruct (count_equal_value df "Emp_Gender" "F")
    as (cf & kf & Hcf & Hvf & Hf1 & Hf0).
  destruct (count_equal_value df "Emp_Nationality" "AE")
    as (cu & ku & Hcu & Hvu & Hu1 & Hu0).
  assert (∀ c v k,
            (has_column df c = true →
             ∃ cells, df_col df c = Ok cells ∧ length cells = df_len df
                      ∧ k = length (filter (λ x, x = CStr v) cells)) →
            (has_column df c = false → k = 0) → k ≤ n) as Hle.
  { intros c v k H1 H0. destruct (has_column df c).
    - destruct (H1 eq_refl) as (cells & _ & Hlen & ->).
      subst n. rewrite <- Hlen. apply length_filter.
    - rewrite H0 by done. lia. }
  pose proof (Hle _ _ _ Hm1 Hm0) as Hkm.
  pose proof (Hle _ _ _ Hf1 Hf0) as Hkf.
  pose proof (Hle _ _ _ Hu1 Hu0) as Hku.
  unfold workforce_overview. fold n.
  rewrite Hcm, Hcf, Hcu. cbn [mbind result_bind].
  rewrite !workforce_share_by_len by done. cbn [mbind result_bind].
  rewrite num_val_pysub, Hvm, Hvf, Hvu. cbn [of_len num_val].
  eexists _, _, _, _. split; [reflexivity|].
  destruct (ratio_times100_bounds km n) as [? ?]; [lia|done|].
  destruct (ratio_times100_bounds kf n) as [? ?]; [lia|done|].
  destruct (ratio_times100_bounds ku n) as [? ?]; [lia|done|].
  destruct (ratio_times100_bounds (n - ku) n) as [He0 He1]; [lia|done|].
  rewrite Qnat_sub in He0, He1 by done.
  split_and!; try done.
  - intros Hc. rewrite (Hm0 Hc), (Hf0 Hc). split; reflexivity.
  - intros Hc. rewrite (Hu0 Hc). split; [reflexivity|].
    assert (Qnat n - Qnat 0 == Qnat n)%Q as -> by (unfold Qnat; simpl; ring).
    by apply ratio_full.
Qed.

Lemma workforce_shares_with_rows_witness :
  ∃ m f u e,
    workforce_overview staff_table
    = Ok {| male_pct := Finite m; female_pct := Finite f;
            uae_pct := Finite u; expat_pct := Finite e |}
    ∧ (m == 200 # 11)%Q ∧ (f == 900 # 11)%Q
    ∧ (u == 200 # 11)%Q ∧ (e == 900 # 11)%Q.
Proof.
  destruct (workforce_shares_with_rows staff_table)
    as (m & f & u & e & Heq & _); [vm_compute; lia|].
  exists m, f, u, e. split; [exact Heq|].
  vm_compute in Heq. injection Heq as <- <- <- <-. by vm_compute.
Defined.

(** ** Value counts and top-N *)

Lemma tally_total (x : Cell) (acc : list (Cell * nat)) :
  sum_list (tally x acc).*2 = S (sum_list acc.*2).
Proof.
  induction acc as [|[k n] rest IH]; [done|].
  cbn [tally]. case_decide; rewrite !fmap_cons; cbn [snd sum_list_with];
    [done|].
  rewrite IH. unfold id. lia.
Qed.

Lemma counts_first_seen_total (col : list Cell) :
  sum_list (counts_first_seen col).*2
  = length (filter (λ c, is_nan c = false) col).
Proof.
  induction col as [|x col IH] using rev_ind; [done|].
  rewrite counts_first_seen_snoc, filter_app, length_app, filter_cons.
  destruct x; cbn [is_nan]; rewrite ?decide_True, ?decide_False by done;
    rewrite ?tally_total, IH; simpl; lia.
Qed.

Lemma positive_counts_length (l : list (Cell * nat)) :
  Forall (λ p, 0 < p.2) l → length l ≤ sum_list l.*2.
Proof.
  induction 1 as [|[k n] l Hn _ IH]; [done|].
  rewrite fmap_cons. cbn [length snd sum_list_with id] in *. lia.
Qed.

(** X21. The counts returned by [value_counts] add up to the number of
    non-missing cells of the column, and there are at most as many pairs
    as rows: the shares of a pie chart drawn from them are shares of the
    non-missing cells. *)
Theorem value_counts_cover_column (sort_values : sorter)
    (col : list Cell) :
  sort_contract sort_values →
  sum_list (value_counts sort_values col).*2
    = length (filter (λ c, is_nan c = false) col)
  ∧ length (value_counts sort_values col) ≤ length col.
Proof.
  intros Hsort. unfold value_counts.
  destruct (Hsort (counts_first_seen col)) as [Hperm _].
  rewrite Hperm. split; [apply counts_first_seen_total|].
  pose proof (counts_first_seen_total col) as Htot.
  pose proof (positive_counts_length _ (counts_first_seen_positive col))
    as Hpos.
  pose proof (length_filter (λ c, is_nan c = false) col) as Hlen.
  lia.
Qed.

Lemma value_counts_cover_column_witness :
  sort_contract stable_sort_desc
  ∧ sum_list (value_counts stable_sort_desc letters).*2
    = length (filter (λ c, is_nan c = false) letters).
Proof.
  split; [apply stable_sort_desc_contract|].
  apply (value_counts_cover_column stable_sort_desc letters).
  apply stable_sort_desc_contract.
Defined.



(** ** Grouped sums of an integer column *)










Section groups.
Variable f : list Cell → Z.
Hypothesis f_app : ∀ l1 l2, f (l1 ++ l2) = (f l1 + f l2)%Z.
Hypothesis f_nil : f [] = 0%Z.



End groups.











